(** * Project-Uber: a ride-dispatch simulation, embedded and verified

    The Python sources [location.py], [rider.py], [driver.py],
    [dispatcher.py] and [event.py] are embedded shallowly.

    - Python integers are [Z]; [//] is floor division, which is [Z.div]
      for a divisor other than zero and [ZeroDivisionError] at zero.
    - A Python value that is either [None] or an instance is an [option].
    - An uncaught exception is a [Raise]; nothing in the sources catches
      one, so a raise ends the run and no state is kept after it.
    - [Driver] and [Rider] instances are mutated in place and shared
      between the dispatcher's lists and the events, so they live in a
      store ([gmap]) and are named by references.  [Driver.__eq__] returns
      [None] and [Rider] has no [__eq__], hence [in] and [list.remove]
      compare by identity, which is equality of references here.
    - The standard output is not part of the model, but a [print] call
      converts its arguments with [str] first, and that can raise: the
      [print] calls of [request_driver] are modelled by the conversion
      they perform.  [print(self.availableDriver)] in [activateDriver]
      shows a list, whose elements are shown by the default [repr] of an
      instance; it cannot raise and is left out.
    - [Dispatcher.__str__] and the [__str__] methods of the events are
      not used by any operation below and are left out.
    - [dispatcher2.py] is an unfinished draft that no module imports; it
      is not embedded. *)

From Stdlib Require Import ZArith String Ascii List Lia Bool DecimalString.
From stdpp Require Import gmap list strings.

Local Open Scope Z_scope.

(** ** Exceptions *)

Inductive exn : Type :=
| AttributeError
| IndexError
| TypeError
| ValueError
| ZeroDivisionError
| DanglingReference. (* model only: a reference outside the store *)

Inductive result (A : Type) : Type :=
| Ok (a : A)
| Raise (e : exn).

Arguments Ok {A} a.
Arguments Raise {A} e.

Definition bind {A B : Type} (m : result A) (k : A -> result B) : result B :=
  match m with
  | Ok a => k a
  | Raise e => Raise e
  end.

Notation "'do' x <- m ; k" := (bind m (fun x => k))
  (at level 10, x pattern, m at level 100, k at level 200).

(** ** location.py *)

Module Location.

Record t : Type := mk { row : Z; column : Z }.

(** [Location.__str__]: the body is [pass], so the method returns [None]. *)
Definition __str__ (self : t) : option string := None.

(** The built-in [str(x)] on a [Location]: a [__str__] that returns a
    non-string makes [str] raise [TypeError]. *)
Definition str (self : t) : result string :=
  match __str__ self with
  | Some s => Ok s
  | None => Raise TypeError
  end.

(** [Location.__eq__] *)
Definition __eq__ (self other : t) : bool :=
  (row self =? row other) && (column self =? column other).

(** Reading [.row] or [.column] of a value that may be [None]. *)
Definition get_row (v : option t) : result Z :=
  match v with Some l => Ok (row l) | None => Raise AttributeError end.

Definition get_column (v : option t) : result Z :=
  match v with Some l => Ok (column l) | None => Raise AttributeError end.

Definition manhattan_distance (origin destination : option t) : result Z :=
  do r1 <- get_row origin;
  do r2 <- get_row destination;
  do c1 <- get_column origin;
  do c2 <- get_column destination;
  Ok (Z.abs (r1 - r2) + Z.abs (c1 - c2)).

(** [s[i]] on a string, for [i >= 0]. *)
Definition index (s : string) (i : nat) : result ascii :=
  match String.get i s with
  | Some c => Ok c
  | None => Raise IndexError
  end.

(** [int(c)] on a string of one character (code point below 256): the
    decimal digits are accepted, everything else is a [ValueError]. *)
Definition int_of_char (c : ascii) : result Z :=
  let n := Z.of_nat (nat_of_ascii c) in
  if (48 <=? n) && (n <=? 57) then Ok (n - 48) else Raise ValueError.

Definition deserialize_location (location_str : string) : result t :=
  do c0 <- index location_str 0;
  do r <- int_of_char c0;
  do c2 <- index location_str 2;
  do c <- int_of_char c2;
  Ok (mk r c).

(** The serialized form in the words of the spec, for comparison with
    [str]: the text [row,col] with both coordinates in decimal. *)
Definition serialize_spec (loc : t) : string :=
  (NilZero.string_of_int (Z.to_int (row loc)) ++ ","
   ++ NilZero.string_of_int (Z.to_int (column loc)))%string.

(** The round trip as the code has it: [deserialize_location(str(loc))]. *)
Definition round_trip (loc : t) : result t :=
  do s <- str loc;
  deserialize_location s.

End Location.

(** ** rider.py *)

Module Rider.

Definition WAITING : string := "waiting".
Definition CANCELLED : string := "cancelled".
Definition SATISFIED : string := "satisfied".

(** [Rider.__init__(identifier, status, destination, origin, patience)] *)
Record t : Type := mk {
  id : string;
  status : string;
  destination : Location.t;
  location : Location.t;
  patience : Z
}.

Definition updateStatus (self : t) (newStatus : string) : t :=
  mk (id self) newStatus (destination self) (location self) (patience self).

(** [Rider.__str__]: both fields are strings. *)
Definition __str__ (self : t) : string :=
  (id self ++ " " ++ status self)%string.

End Rider.

(** ** driver.py *)

Module Driver.

(** [location] becomes [None] when [end_drive] or [end_ride] runs on a
    driver whose [destination] is [None]; both fields are optional. *)
Record t : Type := mk {
  id : string;
  location : option Location.t;
  speed : Z;
  destination : option Location.t
}.

(** [Driver.__init__(identifier, location, speed)] *)
Definition __init__ (identifier : string) (loc : Location.t) (spd : Z) : t :=
  mk identifier (Some loc) spd None.

(** [a // b] on integers. *)
Definition floordiv (a b : Z) : result Z :=
  if b =? 0 then Raise ZeroDivisionError else Ok (a / b).

Definition get_travel_time (self : t) (dest : option Location.t) : result Z :=
  do dist <- Location.manhattan_distance (location self) dest;
  floordiv dist (speed self).

(** The assignment to [self.destination] comes first; the returned
    driver is the mutated one. *)
Definition start_drive (self : t) (loc : option Location.t) : result (Z * t) :=
  let self' := mk (id self) (location self) (speed self) loc in
  do dist <- Location.manhattan_distance (location self') (destination self');
  do time <- floordiv dist (speed self');
  Ok (time, self').

(** [end_drive] only assigns [self.location]. *)
Definition end_drive (self : t) : t :=
  mk (id self) (destination self) (speed self) (destination self).

(** [start_ride(rider)] reads [rider.destination], passed here as the
    value read. *)
Definition start_ride (self : t) (rider_destination : option Location.t)
  : result (Z * t) :=
  let self' := mk (id self) (location self) (speed self) rider_destination in
  do dist <- Location.manhattan_distance (location self') rider_destination;
  do time <- floordiv dist (speed self');
  Ok (time, self').

Definition end_ride (self : t) : t :=
  mk (id self) (destination self) (speed self) None.

(** A replacement field of [str.format] filled with [self.location]:
    [None] is shown as the text None; a [Location] has no [__format__] of
    its own, so [str] is called on it. *)
Definition format_location (v : option Location.t) : result string :=
  match v with
  | None => Ok "None"%string
  | Some l => Location.str l
  end.

(** [Driver.__str__]:
    ["Driver: {0}, located at {1}".format(self.id, self.location)]. *)
Definition __str__ (self : t) : result string :=
  do shown <- format_location (location self);
  Ok ("Driver: " ++ id self ++ ", located at " ++ shown)%string.

End Driver.

(** ** The store of instances *)

Inductive object : Type :=
| DriverObj (d : Driver.t)
| RiderObj (r : Rider.t).

Definition ref : Type := nat.

Definition deref (h : gmap nat object) (r : ref) : result object :=
  match h !! r with
  | Some o => Ok o
  | None => Raise DanglingReference
  end.

(** Attribute reads; both classes have [id], [location] and
    [destination], only [Rider] has [status] and [patience]. *)

Definition attr_id (o : object) : string :=
  match o with
  | DriverObj d => Driver.id d
  | RiderObj r => Rider.id r
  end.

Definition attr_location (o : object) : option Location.t :=
  match o with
  | DriverObj d => Driver.location d
  | RiderObj r => Some (Rider.location r)
  end.

Definition attr_destination (o : object) : option Location.t :=
  match o with
  | DriverObj d => Driver.destination d
  | RiderObj r => Some (Rider.destination r)
  end.

Definition attr_status (o : object) : result string :=
  match o with
  | DriverObj _ => Raise AttributeError
  | RiderObj r => Ok (Rider.status r)
  end.

Definition attr_patience (o : object) : result Z :=
  match o with
  | DriverObj _ => Raise AttributeError
  | RiderObj r => Ok (Rider.patience r)
  end.

(** Looking up a method of [Driver] on an instance: a [Rider] has none of
    them.  Likewise for [Rider.updateStatus]. *)

Definition as_driver (o : object) : result Driver.t :=
  match o with
  | DriverObj d => Ok d
  | RiderObj _ => Raise AttributeError
  end.

Definition as_rider (o : object) : result Rider.t :=
  match o with
  | DriverObj _ => Raise AttributeError
  | RiderObj r => Ok r
  end.

(** The built-in [str(x)] on an instance, as [print] applies it to each of
    its arguments. *)
Definition py_str (o : object) : result string :=
  match o with
  | DriverObj d => Driver.__str__ d
  | RiderObj r => Ok (Rider.__str__ r)
  end.

(** ** Python lists of references *)

(** [x in l], by identity. *)
Fixpoint py_in (x : ref) (l : list ref) : bool :=
  match l with
  | [] => false
  | y :: l' => (x =? y)%nat || py_in x l'
  end.

(** [l.remove(x)]: the first occurrence goes, [ValueError] when there is
    none. *)
Fixpoint py_remove (x : ref) (l : list ref) : result (list ref) :=
  match l with
  | [] => Raise ValueError
  | y :: l' =>
      if (x =? y)%nat then Ok l'
      else do l'' <- py_remove x l'; Ok (y :: l'')
  end.

(** ** dispatcher.py *)

Module Dispatcher.

Record t : Type := mk {
  driverFleet : list ref;
  availableDriver : list ref;
  waitingList : list ref
}.

Definition __init__ : t := mk [] [] [].

(** [driver.get_travel_time(rider.location)] on two instances of the
    store. *)
Definition travel_time_to (h : gmap nat object) (rider driver : ref)
  : result Z :=
  do o <- deref h driver;
  do d <- as_driver o;
  do r <- deref h rider;
  Driver.get_travel_time d (attr_location r).

(** [print(x, x.get_travel_time(rider.location))]: the travel time is
    computed first, then [print] converts the instance with [str] (the
    travel time is an integer and its conversion cannot raise).  What is
    written is not kept. *)
Definition print_with_travel_time (h : gmap nat object) (rider x : ref)
  : result unit :=
  do time <- travel_time_to h rider x;
  do o <- deref h x;
  do shown <- py_str o;
  Ok tt.

(** The [for driver in self.availableDriver] loop, with its two [print]
    calls. *)
Fixpoint nearest_loop (h : gmap nat object) (rider nearestDriver : ref)
    (drivers : list ref) : result ref :=
  match drivers with
  | [] => Ok nearestDriver
  | driver :: rest =>
      do _ <- print_with_travel_time h rider nearestDriver;
      do _ <- print_with_travel_time h rider driver;
      do time <- travel_time_to h rider driver;
      do best <- travel_time_to h rider nearestDriver;
      nearest_loop h rider (if time <? best then driver else nearestDriver)
        rest
  end.

Definition request_driver (h : gmap nat object) (self : t) (rider : ref)
  : result (option ref * t) :=
  match availableDriver self with
  | [] =>
      Ok (None,
          mk (driverFleet self) (availableDriver self)
             (waitingList self ++ [rider]))
  | first :: _ =>
      do nearestDriver <-
        nearest_loop h rider first (availableDriver self);
      Ok (Some nearestDriver, self)
  end.

Definition request_rider (self : t) (driver : ref) : option ref * t :=
  let self' :=
    if negb (py_in driver (driverFleet self)) then
      mk (driverFleet self ++ [driver]) (availableDriver self ++ [driver])
         (waitingList self)
    else self in
  match waitingList self' with
  | [] => (None, self')
  | first :: _ => (Some first, self')
  end.

Definition activateDriver (self : t) (driver : ref) : t :=
  mk (driverFleet self) (availableDriver self ++ [driver]) (waitingList self).

Definition deActivateDriver (self : t) (driver : ref) : result t :=
  do l <- py_remove driver (availableDriver self);
  Ok (mk (driverFleet self) l (waitingList self)).

Definition cancel_ride (self : t) (rider : ref) : t :=
  if py_in rider (waitingList self) then
    match py_remove rider (waitingList self) with
    | Ok l => mk (driverFleet self) (availableDriver self) l
    | Raise _ => self
    end
  else self.

End Dispatcher.

(** ** monitor.py *)

Module Monitor.

(** Modelled from the spec: [monitor.py] is not among the sources.  Its
    constants are free-floating strings whose values the spec does not
    give; they are a parameter of the event handlers. *)
Record constants : Type := mkConstants {
  RIDER : string;
  DRIVER : string;
  REQUEST : string;
  CANCEL : string;
  PICKUP : string;
  DROPOFF : string
}.

(** What the handlers pass as the actor: [x.id], a string, or (in
    [Dropoff.do]) the rider instance itself. *)
Inductive identifier : Type :=
| IdStr (s : string)
| IdObj (r : ref).

Record Activity : Type := mkActivity {
  timestamp : Z;
  actorKind : string;
  eventKind : string;
  actorId : identifier;
  location : option Location.t
}.

(** Modelled from the spec: the monitor is an append-only log of the
    tuples it is notified of. *)
Definition notify (self : list Activity) (ts : Z) (actor event : string)
    (ident : identifier) (loc : option Location.t) : list Activity :=
  self ++ [mkActivity ts actor event ident loc].

End Monitor.

(** ** The state the event handlers work on *)

Record world : Type := mkWorld {
  store : gmap nat object;
  dispatcher : Dispatcher.t;
  monitor : list Monitor.Activity
}.

(** ** event.py *)

Module Event.

(** Each constructor lists its fields in the order of the parameters of
    the class's [__init__], after [self]; the calls below are
    positional, as in the source. *)
Inductive t : Type :=
| RiderRequest (timestamp : Z) (rider : ref)
| DriverRequest (timestamp : Z) (driver : ref)
| Cancellation (timestamp : Z) (rider : ref)
| Pickup (timestamp : Z) (rider : ref) (driver : ref)
| Dropoff (timestamp : Z) (driver : ref) (rider : ref).

Definition timestamp (e : t) : Z :=
  match e with
  | RiderRequest ts _ | DriverRequest ts _ | Cancellation ts _
  | Pickup ts _ _ | Dropoff ts _ _ => ts
  end.

(** The comparison methods of [Event]; no subclass overrides them. *)
Definition __eq__ (self other : t) : bool := timestamp self =? timestamp other.
Definition __ne__ (self other : t) : bool := negb (__eq__ self other).
Definition __lt__ (self other : t) : bool := timestamp self <? timestamp other.
Definition __le__ (self other : t) : bool := timestamp self <=? timestamp other.
Definition __gt__ (self other : t) : bool := negb (__le__ self other).
Definition __ge__ (self other : t) : bool := negb (__lt__ self other).

Section Handlers.

Variable K : Monitor.constants.

Definition RiderRequest_do (ts : Z) (rider : ref) (w : world)
  : result (list t * world) :=
  do r <- deref (store w) rider;
  let mon :=
    Monitor.notify (monitor w) ts (Monitor.RIDER K) (Monitor.REQUEST K)
      (Monitor.IdStr (attr_id r)) (attr_location r) in
  do (driver, disp) <-
    Dispatcher.request_driver (store w) (dispatcher w) rider;
  match driver with
  | Some d =>
      do o <- deref (store w) d;
      do dr <- as_driver o;
      do (travel_time, dr') <- Driver.start_drive dr (attr_location r);
      let h := <[d := DriverObj dr']> (store w) in
      do r' <- deref h rider;
      do patience <- attr_patience r';
      Ok ([Pickup (ts + travel_time) rider d;
           Cancellation (ts + patience) rider],
          mkWorld h disp mon)
  | None =>
      do patience <- attr_patience r;
      Ok ([Cancellation (ts + patience) rider],
          mkWorld (store w) disp mon)
  end.

Definition DriverRequest_do (ts : Z) (driver : ref) (w : world)
  : result (list t * world) :=
  do o <- deref (store w) driver;
  let mon :=
    Monitor.notify (monitor w) ts (Monitor.DRIVER K) (Monitor.REQUEST K)
      (Monitor.IdStr (attr_id o)) (attr_location o) in
  let '(rider, disp) := Dispatcher.request_rider (dispatcher w) driver in
  match rider with
  | Some r =>
      do dr <- as_driver o;
      do ro <- deref (store w) r;
      do (expectedTravelTime, dr') <-
        Driver.start_drive dr (attr_location ro);
      Ok ([Pickup (expectedTravelTime + ts) driver r],
          mkWorld (<[driver := DriverObj dr']> (store w)) disp mon)
  | None => Ok ([], mkWorld (store w) disp mon)
  end.

Definition Cancellation_do (ts : Z) (rider : ref) (w : world)
  : result (list t * world) :=
  do o <- deref (store w) rider;
  let mon :=
    Monitor.notify (monitor w) ts (Monitor.RIDER K) (Monitor.CANCEL K)
      (Monitor.IdStr (attr_id o)) (attr_location o) in
  let disp := Dispatcher.cancel_ride (dispatcher w) rider in
  do r <- as_rider o;
  Ok ([],
      mkWorld
        (<[rider := RiderObj (Rider.updateStatus r Rider.CANCELLED)]>
           (store w))
        disp mon).

Definition Pickup_do (ts : Z) (rider driver : ref) (w : world)
  : result (list t * world) :=
  do o <- deref (store w) driver;
  do dr <- as_driver o;
  let h := <[driver := DriverObj (Driver.end_drive dr)]> (store w) in
  do ro <- deref h rider;
  let mon :=
    Monitor.notify (monitor w) ts (Monitor.RIDER K) (Monitor.PICKUP K)
      (Monitor.IdStr (attr_id ro)) (attr_location ro) in
  do status <- attr_status ro;
  if String.eqb status Rider.WAITING then
    do (expectedRideTime, dr') <-
      Driver.start_ride (Driver.end_drive dr) (attr_destination ro);
    Ok ([Dropoff (ts + expectedRideTime) driver rider],
        mkWorld (<[driver := DriverObj dr']> h) (dispatcher w) mon)
  else if String.eqb status (Monitor.CANCEL K) then
    Ok ([DriverRequest ts driver], mkWorld h (dispatcher w) mon)
  else Ok ([], mkWorld h (dispatcher w) mon).

Definition Dropoff_do (ts : Z) (driver rider : ref) (w : world)
  : result (list t * world) :=
  do o <- deref (store w) driver;
  let mon :=
    Monitor.notify (monitor w) ts (Monitor.RIDER K) (Monitor.DROPOFF K)
      (Monitor.IdObj rider) (attr_location o) in
  do dr <- as_driver o;
  let h := <[driver := DriverObj (Driver.end_ride dr)]> (store w) in
  do ro <- deref h rider;
  do r <- as_rider ro;
  Ok ([DriverRequest ts driver],
      mkWorld
        (<[rider := RiderObj (Rider.updateStatus r Rider.SATISFIED)]> h)
        (dispatcher w) mon).

(** [event.do(dispatcher, monitor)], dispatched on the class. *)
Definition do_ (e : t) (w : world) : result (list t * world) :=
  match e with
  | RiderRequest ts rider => RiderRequest_do ts rider w
  | DriverRequest ts driver => DriverRequest_do ts driver w
  | Cancellation ts rider => Cancellation_do ts rider w
  | Pickup ts rider driver => Pickup_do ts rider driver w
  | Dropoff ts driver rider => Dropoff_do ts driver rider w
  end.

End Handlers.

End Event.

(** ** Fixtures for the scenarios of the spec *)

Module Scenario.

Local Open Scope string_scope.

(** One choice of values for the constants of [monitor.py], used to run
    examples; [CANCEL] differs from [Rider.CANCELLED]. *)
Definition K : Monitor.constants :=
  Monitor.mkConstants "rider" "driver" "request" "cancel" "pickup" "dropoff".

(** Scenario B: drivers at (0,0) and (10,10), riders at (1,1) and (1,2). *)
Definition storeB : gmap nat object :=
  <[0%nat := DriverObj (Driver.__init__ "D0" (Location.mk 0 0) 1)]>
  (<[1%nat := DriverObj (Driver.__init__ "D1" (Location.mk 10 10) 1)]>
  (<[2%nat :=
       RiderObj (Rider.mk "R2" Rider.WAITING (Location.mk 5 5)
                   (Location.mk 1 1) 5)]>
  (<[3%nat :=
       RiderObj (Rider.mk "R3" Rider.WAITING (Location.mk 7 7)
                   (Location.mk 1 2) 5)]> ∅))).

Definition dispatcherB : Dispatcher.t :=
  Dispatcher.mk [0%nat; 1%nat] [0%nat; 1%nat] [].

(** Scenario D: driver 0 at (0,0) with speed 1, rider 1 waiting at (2,0)
    and bound for (2,5). *)
Definition storeD : gmap nat object :=
  <[0%nat := DriverObj (Driver.__init__ "D" (Location.mk 0 0) 1)]>
  (<[1%nat :=
       RiderObj (Rider.mk "R" Rider.WAITING (Location.mk 2 5)
                   (Location.mk 2 0) 10)]> ∅).

Definition worldD : world :=
  mkWorld storeD (Dispatcher.mk [] [] [1%nat]) [].

(** A rider already dropped off, and a driver on its way to a rider who
    has cancelled. *)
Definition storeC (status : string) : gmap nat object :=
  <[0%nat :=
      DriverObj (Driver.mk "D" (Some (Location.mk 0 0)) 1
                   (Some (Location.mk 2 0)))]>
  (<[1%nat :=
       RiderObj (Rider.mk "R" status (Location.mk 2 5)
                   (Location.mk 2 0) 5)]> ∅).

Definition worldC (status : string) : world :=
  mkWorld (storeC status) (Dispatcher.mk [0%nat] [0%nat] []) [].

End Scenario.

(** ** event.py: the loader *)

(** [create_event_list] from [tokens = line.split()] on.  Opening the
    file, [strip], the test for blank and [#] lines and [split] are
    built-ins applied before this point: the input here is the list of
    [tokens] of the lines that are kept, in order.  The built-in [int] on
    a token is a parameter.  [Driver(...)] and [Rider(...)] create a new
    instance, which takes a reference the store does not hold yet. *)

Section Loader.

Variable int : string -> result Z.

(** [tokens[i]] *)
Definition token (tokens : list string) (i : nat) : result string :=
  match tokens !! i with
  | Some s => Ok s
  | None => Raise IndexError
  end.

Definition alloc (h : gmap nat object) (o : object)
  : ref * gmap nat object :=
  let r := fresh (dom h) in (r, <[r := o]> h).

(** The body of the loop for one line; the result is the list [event]
    that the loop appends to [events]. *)
Definition event_of_tokens (tokens : list string) (h : gmap nat object)
  : result (list Event.t * gmap nat object) :=
  do t0 <- token tokens 0;
  do timestamp <- int t0;
  do event_type <- token tokens 1;
  if String.eqb event_type "DriverRequest" then
    do driverIdentification <- token tokens 2;
    do t3 <- token tokens 3;
    do driverLocation <- Location.deserialize_location t3;
    do t4 <- token tokens 4;
    do driverSpeed <- int t4;
    let (driver, h') :=
      alloc h
        (DriverObj
           (Driver.__init__ driverIdentification driverLocation driverSpeed))
    in
    Ok ([Event.DriverRequest timestamp driver], h')
  else if String.eqb event_type "RiderRequest" then
    do riderIdentification <- token tokens 2;
    do t3 <- token tokens 3;
    do riderLocation <- Location.deserialize_location t3;
    do t4 <- token tokens 4;
    do riderDestination <- Location.deserialize_location t4;
    do t5 <- token tokens 5;
    do riderPatience <- int t5;
    let (rider, h') :=
      alloc h
        (RiderObj
           (Rider.mk riderIdentification Rider.WAITING riderDestination
              riderLocation riderPatience))
    in
    Ok ([Event.RiderRequest timestamp rider], h')
  else Ok ([], h).

Fixpoint create_event_list (lines : list (list string))
    (h : gmap nat object)
  : result (list (list Event.t) * gmap nat object) :=
  match lines with
  | [] => Ok ([], h)
  | tokens :: rest =>
      do (event, h') <- event_of_tokens tokens h;
      do (events, h'') <- create_event_list rest h';
      Ok (event :: events, h'')
  end.

End Loader.

(** ** Conditions that some properties assume *)

(** A driver moves (positive speed) and a rider's patience is not
    negative. *)
Definition sound_object (o : object) : Prop :=
  match o with
  | DriverObj d => 0 < Driver.speed d
  | RiderObj r => 0 <= Rider.patience r
  end.

(** Two states of one instance: the same class, and the fields that no
    method assigns (a driver's id and speed; a rider's id, location,
    destination and patience) unchanged. *)
Definition same_actor (o o' : object) : Prop :=
  match o, o' with
  | DriverObj d, DriverObj d' =>
      Driver.id d = Driver.id d' /\ Driver.speed d = Driver.speed d'
  | RiderObj r, RiderObj r' =>
      Rider.id r = Rider.id r' /\ Rider.location r = Rider.location r' /\
      Rider.destination r = Rider.destination r' /\
      Rider.patience r = Rider.patience r'
  | _, _ => False
  end.

(** What holds after a handler that ran at [ts] from [w] and returned
    [evs] and [w']: one record more on the monitor, stamped [ts]; the same
    instances in the store; at most two events; and, for a sound store, no
    event earlier than [ts]. *)
Definition handler_post (ts : Z) (w : world) (evs : list Event.t)
    (w' : world) : Prop :=
  (exists a, monitor w' = monitor w ++ [a] /\ Monitor.timestamp a = ts) /\
  (forall r, option_Forall2 same_actor (store w !! r) (store w' !! r)) /\
  (length evs <= 2)%nat /\
  (map_Forall (fun _ => sound_object) (store w) ->
   Forall (fun e' => ts <= Event.timestamp e') evs).

(** The events and the state a handler ended with, for examples; a run
    that raised has neither and is given as no event and the state it
    started from. *)
Definition ran (r : result (list Event.t * world)) (w : world)
  : list Event.t * world :=
  match r with
  | Ok p => p
  | Raise _ => ([], w)
  end.

(** An instance as the loader creates it: on the 10 x 10 grid, a driver
    with no destination, a rider WAITING. *)
Definition in_grid (l : Location.t) : Prop :=
  0 <= Location.row l <= 9 /\ 0 <= Location.column l <= 9.

Definition loaded_object (o : object) : Prop :=
  match o with
  | DriverObj d =>
      Driver.destination d = None /\
      exists l, Driver.location d = Some l /\ in_grid l
  | RiderObj r =>
      Rider.status r = Rider.WAITING /\
      in_grid (Rider.location r) /\ in_grid (Rider.destination r)
  end.

(** The reference an event of the loader carries. *)
Definition actor (e : Event.t) : ref :=
  match e with
  | Event.RiderRequest _ r | Event.Cancellation _ r => r
  | Event.DriverRequest _ d => d
  | Event.Pickup _ r _ => r
  | Event.Dropoff _ d _ => d
  end.

Module LoaderScenario.

Local Open Scope string_scope.

(** A stand-in for the built-in [int] on tokens of decimal digits, used to
    run examples. *)
Fixpoint digits (s : string) (acc : Z) : result Z :=
  match s with
  | EmptyString => Ok acc
  | String c s' =>
      do d <- Location.int_of_char c;
      digits s' (10 * acc + d)
  end.

Definition int (s : string) : result Z :=
  match s with
  | EmptyString => Raise ValueError
  | _ => digits s 0
  end.

Definition lines : list (list string) :=
  [ ["0"; "DriverRequest"; "Amy"; "1,2"; "3"];
    ["4"; "RiderRequest"; "Bob"; "4,2"; "1,5"; "15"];
    ["7"; "DriverRequest"; "Amy"; "1,2"; "3"];
    ["9"; "Nothing"] ].

(** What the loader returns on [lines] from the empty store. *)
Definition loaded : list (list Event.t) * gmap nat object :=
  match create_event_list int lines ∅ with
  | Ok p => p
  | Raise _ => ([], ∅)
  end.

End LoaderScenario.

(** * Properties *)

(** ** Helper lemmas *)

Lemma bind_Ok_inv {A B : Type} (m : result A) (k : A -> result B) (b : B) :
  bind m k = Ok b -> exists a, m = Ok a /\ k a = Ok b.
Proof.
  destruct m as [a|e]; simpl; intros H; [eauto | discriminate].
Qed.

Lemma py_in_elem_of (x : ref) (l : list ref) : py_in x l = true <-> x ∈ l.
Proof.
  induction l as [|y l IH]; simpl.
  - split; [discriminate | intros H; inversion H].
  - rewrite orb_true_iff, IH, Nat.eqb_eq, elem_of_cons. tauto.
Qed.

(** A travel time that can be computed belongs to a [Driver] with a
    location, and showing such a driver raises: [Driver.__str__] formats
    the location, and [Location.__str__] returns [None]. *)
Lemma print_with_travel_time_raises (h : gmap nat object) (rider x : ref) :
  Dispatcher.print_with_travel_time h rider x =
  Raise (match Dispatcher.travel_time_to h rider x with
         | Ok _ => TypeError
         | Raise e => e
         end).
Proof.
  unfold Dispatcher.print_with_travel_time, Dispatcher.travel_time_to, deref.
  destruct (h !! x) as [[d | r] |]; simpl; try reflexivity.
  destruct (h !! rider) as [o |]; simpl; [|reflexivity].
  unfold Driver.get_travel_time, py_str, Driver.__str__,
    Driver.format_location.
  destruct (Driver.location d) as [l |]; simpl.
  - destruct (Location.manhattan_distance (Some l) (attr_location o));
      simpl; [|reflexivity].
    destruct (Driver.floordiv a (Driver.speed d)); reflexivity.
  - reflexivity.
Qed.

(** The loop does not get past its first [print]. *)
Lemma nearest_loop_raises (h : gmap nat object) (rider n x : ref)
    (rest : list ref) :
  Dispatcher.nearest_loop h rider n (x :: rest) =
  Raise (match Dispatcher.travel_time_to h rider n with
         | Ok _ => TypeError
         | Raise e => e
         end).
Proof. simpl. rewrite print_with_travel_time_raises. reflexivity. Qed.

Lemma request_driver_raises (h : gmap nat object) (self : Dispatcher.t)
    (rider first : ref) (rest : list ref) :
  Dispatcher.availableDriver self = first :: rest ->
  Dispatcher.request_driver h self rider =
  Raise (match Dispatcher.travel_time_to h rider first with
         | Ok _ => TypeError
         | Raise e => e
         end).
Proof.
  intros Hav. unfold Dispatcher.request_driver. rewrite Hav.
  rewrite nearest_loop_raises. reflexivity.
Qed.

(** [request_driver] never writes [availableDriver] or [driverFleet], and a
    driver it returns is a member of [availableDriver] afterwards. *)
Lemma request_driver_available_unchanged (h : gmap nat object)
    (self self' : Dispatcher.t) (rider : ref) (d : option ref) :
  Dispatcher.request_driver h self rider = Ok (d, self') ->
  Dispatcher.availableDriver self' = Dispatcher.availableDriver self /\
  Dispatcher.driverFleet self' = Dispatcher.driverFleet self /\
  (forall x, d = Some x -> x ∈ Dispatcher.availableDriver self').
Proof.
  destruct (Dispatcher.availableDriver self) as [|first rest] eqn:Hav.
  - unfold Dispatcher.request_driver. rewrite Hav.
    intros H. inversion H; subst; simpl.
    split; [reflexivity|]. split; [reflexivity|]. discriminate.
  - rewrite (request_driver_raises h self rider first rest Hav).
    discriminate.
Qed.

(** ** C1: no double-booking (fails on the code) *)

(** C1.  The claim says that with a driver available [request_driver]
    returns a driver and takes it off [availableDriver].  On the code no
    driver is ever returned: with a driver available the call raises in
    the first round of the loop, at the first [print].  The exception is
    the one the travel time of the first available driver raises, or,
    when that travel time can be computed, the [TypeError] of showing the
    driver, whose location is a [Location] and [Location.__str__] returns
    [None].  The dispatcher is as it was, the driver still available. *)
Theorem request_driver_raises_with_driver_available (h : gmap nat object)
    (self : Dispatcher.t) (rider first : ref) (rest : list ref) :
  Dispatcher.availableDriver self = first :: rest ->
  Dispatcher.request_driver h self rider =
  Raise (match Dispatcher.travel_time_to h rider first with
         | Ok _ => TypeError
         | Raise e => e
         end).
Proof. exact (request_driver_raises h self rider first rest). Qed.

Lemma request_driver_raises_with_driver_available_witness :
  Dispatcher.request_driver Scenario.storeB Scenario.dispatcherB 2%nat =
  Raise (match Dispatcher.travel_time_to Scenario.storeB 2%nat 0%nat with
         | Ok _ => TypeError
         | Raise e => e
         end).
Proof.
  apply (request_driver_raises_with_driver_available Scenario.storeB
           Scenario.dispatcherB 2%nat 0%nat [1%nat]).
  reflexivity.
Defined.

(** At Scenario B: the nearest driver's travel time is 2, and the request
    raises [TypeError]. *)
Example scenario_B_raises :
  Dispatcher.travel_time_to Scenario.storeB 2%nat 0%nat = Ok 2 /\
  Dispatcher.request_driver Scenario.storeB Scenario.dispatcherB 2%nat
    = Raise TypeError.
Proof. split; vm_compute; reflexivity. Qed.

(** ** C2: the waiting list and the nearest driver *)

(** C2.  The first half of the claim holds on the code: with no available
    driver [request_driver] appends the rider to the waiting list and
    returns [None].  The second half does not: with an available driver
    the call returns nothing, it raises.  These are the only two
    outcomes. *)
Theorem request_driver_outcome (h : gmap nat object) (self : Dispatcher.t)
    (rider : ref) :
  (Dispatcher.availableDriver self = [] /\
   Dispatcher.request_driver h self rider =
     Ok (None,
         Dispatcher.mk (Dispatcher.driverFleet self)
           (Dispatcher.availableDriver self)
           (Dispatcher.waitingList self ++ [rider]))) \/
  (Dispatcher.availableDriver self <> [] /\
   exists e, Dispatcher.request_driver h self rider = Raise e).
Proof.
  destruct (Dispatcher.availableDriver self) as [|first rest] eqn:Hav.
  - left. split; [reflexivity|].
    unfold Dispatcher.request_driver. rewrite Hav. reflexivity.
  - right. split; [discriminate|].
    rewrite (request_driver_raises h self rider first rest Hav). eauto.
Qed.

(** Scenario A of the spec, on the code: no driver, the rider waits. *)
Example scenario_A_rider_waits :
  Dispatcher.request_driver Scenario.storeB Dispatcher.__init__ 2%nat =
    Ok (None, Dispatcher.mk [] [] [2%nat]).
Proof. reflexivity. Qed.

(** ** C3: the front of the waiting list *)

(** C3.  The claim says [request_rider] returns the front rider of the
    waiting list, or [None] when the list is empty, and removes the rider
    it returns.  On the code the first part holds and the second does not:
    for every dispatcher and driver the result is the head of the waiting
    list, and the waiting list after the call is the one before it, the
    returned rider still at its front. *)
Theorem request_rider_front_not_removed (self : Dispatcher.t) (driver : ref) :
  fst (Dispatcher.request_rider self driver)
    = head (Dispatcher.waitingList self) /\
  Dispatcher.waitingList (snd (Dispatcher.request_rider self driver))
    = Dispatcher.waitingList self.
Proof.
  destruct self as [fleet available waiting].
  unfold Dispatcher.request_rider. simpl.
  destruct (negb (py_in driver fleet)); simpl;
    destruct waiting; simpl; split; reflexivity.
Qed.

(** The same at a concrete dispatcher: riders 1 and 2 wait, two drivers ask
    in turn and both are handed rider 1. *)
Example request_rider_same_rider_twice :
  let d0 := Dispatcher.mk [] [] [1%nat; 2%nat] in
  let (r1, d1) := Dispatcher.request_rider d0 5%nat in
  let (r2, d2) := Dispatcher.request_rider d1 6%nat in
  r1 = Some 1%nat /\ r2 = Some 1%nat /\
  Dispatcher.waitingList d2 = [1%nat; 2%nat].
Proof. vm_compute. repeat split; reflexivity. Qed.

(** ** C4: registration and availability *)




(** A driver already registered is not added a second time. *)
Lemma request_rider_registered_unchanged (self : Dispatcher.t) (driver : ref) :
  py_in driver (Dispatcher.driverFleet self) = true ->
  snd (Dispatcher.request_rider self driver) = self.
Proof.
  destruct self as [fleet available waiting]. simpl.
  intros Hin. unfold Dispatcher.request_rider. simpl. rewrite Hin. simpl.
  destruct waiting; reflexivity.
Qed.

(** ** C5: cancellation *)

(** C5.  The claim says a Cancellation changes the status only of a rider
    who is WAITING.  On the code the handler writes CANCELLED whatever the
    status was: for every rider in the store the event succeeds, spawns no
    event and leaves the rider with status CANCELLED. *)
Theorem Cancellation_do_overwrites_status (K : Monitor.constants) (ts : Z)
    (rider : ref) (w : world) (r : Rider.t) :
  store w !! rider = Some (RiderObj r) ->
  exists w',
    Event.do_ K (Event.Cancellation ts rider) w = Ok ([], w') /\
    store w' !! rider
      = Some (RiderObj
                (Rider.mk (Rider.id r) Rider.CANCELLED (Rider.destination r)
                   (Rider.location r) (Rider.patience r))) /\
    dispatcher w' = Dispatcher.cancel_ride (dispatcher w) rider.
Proof.
  intros Hr. simpl. unfold Event.Cancellation_do, deref. rewrite Hr. simpl.
  eexists. split; [reflexivity|]. simpl. split; [|reflexivity].
  apply lookup_insert_eq.
Qed.

Lemma Cancellation_do_overwrites_status_witness :
  exists w',
    Event.do_ Scenario.K (Event.Cancellation 5 1%nat)
      (Scenario.worldC Rider.SATISFIED) = Ok ([], w') /\
    store w' !! 1%nat
      = Some (RiderObj
                (Rider.mk "R" Rider.CANCELLED (Location.mk 2 5)
                   (Location.mk 2 0) 5)) /\
    dispatcher w'
      = Dispatcher.cancel_ride (dispatcher (Scenario.worldC Rider.SATISFIED))
          1%nat.
Proof.
  apply (Cancellation_do_overwrites_status Scenario.K 5 1%nat
           (Scenario.worldC Rider.SATISFIED)
           (Rider.mk "R" Rider.SATISFIED (Location.mk 2 5)
              (Location.mk 2 0) 5)).
  vm_compute. reflexivity.
Defined.

(** Scenario C of the spec on the code: with no driver the request puts
    the rider on the waiting list and schedules the Cancellation at
    0 + patience; run on the rider still WAITING, the Cancellation takes the
    rider off the list and leaves the status CANCELLED. *)
Example scenario_C_timeout (K : Monitor.constants) :
  let w0 := mkWorld (Scenario.storeC Rider.WAITING) Dispatcher.__init__ [] in
  exists w1 w2,
    Event.do_ K (Event.RiderRequest 0 1%nat) w0
      = Ok ([Event.Cancellation 5 1%nat], w1) /\
    Dispatcher.waitingList (dispatcher w1) = [1%nat] /\
    Event.do_ K (Event.Cancellation 5 1%nat) w1 = Ok ([], w2) /\
    Dispatcher.waitingList (dispatcher w2) = [] /\
    (do o <- deref (store w2) 1%nat; attr_status o) = Ok Rider.CANCELLED.
Proof. do 2 eexists. repeat split; reflexivity. Qed.

(** ** C6: a pickup that finds the rider cancelled *)

(** C6.  The claim says a Pickup whose rider is CANCELLED returns a
    DriverRequest for the same driver at the same timestamp.  The handler
    compares the status with [CANCEL], the event kind of [monitor.py], not
    with [CANCELLED]: for a driver and a cancelled rider of the store the
    Pickup succeeds and returns the DriverRequest exactly when the two
    constants happen to be the same string, and no event otherwise. *)
Theorem Pickup_do_cancelled_rider (K : Monitor.constants) (ts : Z)
    (rider driver : ref) (w : world) (dr : Driver.t) (r : Rider.t) :
  store w !! driver = Some (DriverObj dr) ->
  store w !! rider = Some (RiderObj r) ->
  Rider.status r = Rider.CANCELLED ->
  exists w',
    Event.do_ K (Event.Pickup ts rider driver) w =
      Ok (if String.eqb Rider.CANCELLED (Monitor.CANCEL K)
          then [Event.DriverRequest ts driver] else [],
          w').
Proof.
  intros Hd Hr Hst.
  assert (Hne : driver <> rider) by (intros ->; congruence).
  unfold Event.do_, Event.Pickup_do, deref.
  rewrite Hd. cbn [bind as_driver].
  rewrite lookup_insert_ne by exact Hne. rewrite Hr.
  cbn [bind attr_status]. rewrite Hst.
  change (String.eqb Rider.CANCELLED Rider.WAITING) with false.
  cbv iota.
  destruct (String.eqb Rider.CANCELLED (Monitor.CANCEL K));
    eexists; reflexivity.
Qed.

Lemma Pickup_do_cancelled_rider_witness :
  exists w',
    Event.do_ Scenario.K (Event.Pickup 5 1%nat 0%nat)
      (Scenario.worldC Rider.CANCELLED) =
      Ok (if String.eqb Rider.CANCELLED (Monitor.CANCEL Scenario.K)
          then [Event.DriverRequest 5 0%nat] else [],
          w').
Proof.
  apply (Pickup_do_cancelled_rider Scenario.K 5 1%nat 0%nat
           (Scenario.worldC Rider.CANCELLED)
           (Driver.mk "D" (Some (Location.mk 0 0)) 1
              (Some (Location.mk 2 0)))
           (Rider.mk "R" Rider.CANCELLED (Location.mk 2 5)
              (Location.mk 2 0) 5));
    vm_compute; reflexivity.
Defined.

(** With [CANCEL] the string "cancel" the list of events is empty. *)
Example Pickup_do_cancelled_rider_no_event :
  exists w',
    Event.do_ Scenario.K (Event.Pickup 5 1%nat 0%nat)
      (Scenario.worldC Rider.CANCELLED) = Ok ([], w').
Proof. eexists. vm_compute. reflexivity. Qed.

(** ** C7: the destination of a driver *)

(** C7.  The claim says [end_drive] moves the driver to its destination and
    clears the destination.  On the code [end_drive] moves the driver and
    keeps the destination: after [start_drive] to a location and
    [end_drive] the destination is still that location.  [end_ride] does
    both, as the claim says of it. *)
Theorem end_drive_keeps_destination (d : Driver.t) :
  Driver.location (Driver.end_drive d) = Driver.destination d /\
  Driver.destination (Driver.end_drive d) = Driver.destination d /\
  Driver.location (Driver.end_ride d) = Driver.destination d /\
  Driver.destination (Driver.end_ride d) = None.
Proof. repeat split; reflexivity. Qed.

Example end_drive_after_start_drive :
  (do (_, d) <-
     Driver.start_drive (Driver.__init__ "D" (Location.mk 0 0) 1)
       (Some (Location.mk 2 0));
   Ok (Driver.destination (Driver.end_drive d)))
  = Ok (Some (Location.mk 2 0)).
Proof. reflexivity. Qed.

(** The drive-start operations do set the destination they are given. *)
Lemma start_drive_sets_destination (d d' : Driver.t)
    (loc : option Location.t) (time : Z) :
  Driver.start_drive d loc = Ok (time, d') -> Driver.destination d' = loc.
Proof.
  unfold Driver.start_drive. intros H.
  apply bind_Ok_inv in H as (dist & _ & H).
  apply bind_Ok_inv in H as (t & _ & H).
  inversion H; subst. reflexivity.
Qed.

Lemma start_ride_sets_destination (d d' : Driver.t)
    (loc : option Location.t) (time : Z) :
  Driver.start_ride d loc = Ok (time, d') -> Driver.destination d' = loc.
Proof.
  unfold Driver.start_ride. intros H.
  apply bind_Ok_inv in H as (dist & _ & H).
  apply bind_Ok_inv in H as (t & _ & H).
  inversion H; subst. reflexivity.
Qed.

(** ** C8: Scenario D, the full cycle *)

(** C8.  The claim says the DriverRequest of Scenario D leads to a Pickup
    at 2, a Dropoff at 7 and a new DriverRequest at 7.  On the code the
    DriverRequest does produce one event, a Pickup with timestamp 2, but
    built as [Pickup(timestamp, self.driver, rider)] against the
    parameters [(timestamp, rider, driver)]: its [rider] field holds the
    driver (reference 0) and its [driver] field the rider (reference 1).
    Running that Pickup calls [end_drive] on the rider and raises
    [AttributeError]; no Dropoff follows. *)
Theorem scenario_D_pickup_raises (K : Monitor.constants) :
  exists w1,
    Event.do_ K (Event.DriverRequest 0 0%nat) Scenario.worldD
      = Ok ([Event.Pickup 2 0%nat 1%nat], w1) /\
    Event.do_ K (Event.Pickup 2 0%nat 1%nat) w1 = Raise AttributeError.
Proof. eexists. split; reflexivity. Qed.

(** The rest of the chain is as the claim has it once the Pickup carries
    the rider and the driver in the order of its parameters, the way
    [RiderRequest.do] builds it: Dropoff at 7, then the rider SATISFIED and
    a DriverRequest at 7 for the same driver. *)
Example scenario_D_with_ordered_pickup (K : Monitor.constants) :
  exists w1 w2 w3,
    Event.do_ K (Event.DriverRequest 0 0%nat) Scenario.worldD
      = Ok ([Event.Pickup 2 0%nat 1%nat], w1) /\
    Event.do_ K (Event.Pickup 2 1%nat 0%nat) w1
      = Ok ([Event.Dropoff 7 0%nat 1%nat], w2) /\
    Event.do_ K (Event.Dropoff 7 0%nat 1%nat) w2
      = Ok ([Event.DriverRequest 7 0%nat], w3) /\
    (do o <- deref (store w3) 1%nat; attr_status o) = Ok Rider.SATISFIED.
Proof. do 3 eexists. repeat split; reflexivity. Qed.

(** ** C9: the round trip of a location *)

Lemma deserialize_single_digits (r c : Z) :
  0 <= r <= 9 -> 0 <= c <= 9 ->
  Location.deserialize_location
    (Location.serialize_spec (Location.mk r c)) = Ok (Location.mk r c).
Proof.
  intros Hr Hc.
  assert (Er : r = 0 \/ r = 1 \/ r = 2 \/ r = 3 \/ r = 4 \/ r = 5 \/ r = 6 \/
               r = 7 \/ r = 8 \/ r = 9) by lia.
  assert (Ec : c = 0 \/ c = 1 \/ c = 2 \/ c = 3 \/ c = 4 \/ c = 5 \/ c = 6 \/
               c = 7 \/ c = 8 \/ c = 9) by lia.
  clear Hr Hc.
  repeat (destruct Er as [-> | Er]);
    try subst r; repeat (destruct Ec as [-> | Ec]); try subst c;
    reflexivity.
Qed.

(** C9.  The claim says [deserialize_location(serialize(loc)) == loc] for
    every location with integer coordinates.  On the code the serialized
    form does not exist: [Location.__str__] returns [None], so [str(loc)]
    raises [TypeError] for every location.  And given the text [row,col]
    the spec describes, [deserialize_location] reads the characters at
    positions 0 and 2 only: for (10,10) it raises [ValueError], for (-1,2)
    too, and for (1,23) it answers (1,2). *)
Theorem round_trip_fails :
  (forall loc, Location.round_trip loc = Raise TypeError) /\
  Location.deserialize_location
    (Location.serialize_spec (Location.mk 10 10)) = Raise ValueError /\
  Location.deserialize_location
    (Location.serialize_spec (Location.mk (-1) 2)) = Raise ValueError /\
  Location.deserialize_location
    (Location.serialize_spec (Location.mk 1 23)) = Ok (Location.mk 1 2).
Proof. repeat split; reflexivity. Qed.

(** ** C10: events compare by timestamp *)

(** C10.  Two events are equal under [__eq__] exactly when their timestamps
    are equal, and ordered under [__lt__] exactly when their timestamps
    are, whatever their classes and payloads; so a Pickup and a Dropoff of
    one timestamp are equal events although they are different values. *)
Theorem event_comparison_by_timestamp :
  (forall e1 e2 : Event.t,
     Event.__eq__ e1 e2 = true <-> Event.timestamp e1 = Event.timestamp e2) /\
  (forall e1 e2 : Event.t,
     Event.__lt__ e1 e2 = true <-> Event.timestamp e1 < Event.timestamp e2) /\
  (forall (ts : Z) (r1 d1 d2 r2 : ref),
     Event.__eq__ (Event.Pickup ts r1 d1) (Event.Dropoff ts d2 r2) = true /\
     Event.Pickup ts r1 d1 <> Event.Dropoff ts d2 r2).
Proof.
  split; [|split].
  - intros e1 e2. unfold Event.__eq__. apply Z.eqb_eq.
  - intros e1 e2. unfold Event.__lt__. apply Z.ltb_lt.
  - intros ts r1 d1 d2 r2. split.
    + unfold Event.__eq__. simpl. apply Z.eqb_refl.
    + discriminate.
Qed.

(** The other four comparisons follow the timestamps as well. *)
Lemma event_other_comparisons (e1 e2 : Event.t) :
  (Event.__ne__ e1 e2 = true <-> Event.timestamp e1 <> Event.timestamp e2) /\
  (Event.__le__ e1 e2 = true <-> Event.timestamp e1 <= Event.timestamp e2) /\
  (Event.__gt__ e1 e2 = true <-> Event.timestamp e1 > Event.timestamp e2) /\
  (Event.__ge__ e1 e2 = true <-> Event.timestamp e1 >= Event.timestamp e2).
Proof.
  unfold Event.__ne__, Event.__gt__, Event.__ge__.
  unfold Event.__le__, Event.__eq__, Event.__lt__.
  destruct (Z.eqb_spec (Event.timestamp e1) (Event.timestamp e2));
    destruct (Z.leb_spec (Event.timestamp e1) (Event.timestamp e2));
    destruct (Z.ltb_spec (Event.timestamp e1) (Event.timestamp e2));
    simpl; repeat split; intros; try reflexivity; try discriminate;
    try lia; try (exfalso; lia).
Qed.

(** * Further properties of the code *)

(** ** location.py *)

(** X1.  [Location.__eq__] holds exactly of two locations with the same
    row and the same column, that is of equal values; it is reflexive,
    symmetric and transitive. *)
Theorem Location_eq_structural :
  (forall a b : Location.t, Location.__eq__ a b = true <-> a = b) /\
  (forall a : Location.t, Location.__eq__ a a = true) /\
  (forall a b : Location.t, Location.__eq__ a b = Location.__eq__ b a) /\
  (forall a b c : Location.t,
     Location.__eq__ a b = true -> Location.__eq__ b c = true ->
     Location.__eq__ a c = true).
Proof.
  assert (Hiff : forall a b : Location.t,
            Location.__eq__ a b = true <-> a = b).
  { intros [r1 c1] [r2 c2]. unfold Location.__eq__. simpl.
    rewrite andb_true_iff, !Z.eqb_eq. split.
    - intros [-> ->]. reflexivity.
    - intros H. inversion H. split; reflexivity. }
  split; [exact Hiff|]. split; [|split].
  - intros a. apply Hiff. reflexivity.
  - intros [r1 c1] [r2 c2]. unfold Location.__eq__. simpl.
    rewrite (Z.eqb_sym r1 r2), (Z.eqb_sym c1 c2). reflexivity.
  - intros a b c Hab Hbc. apply Hiff in Hab, Hbc. apply Hiff. congruence.
Qed.

(** X2.  On two locations [manhattan_distance] returns a number that is
    not negative, is zero exactly when the locations are equal under
    [__eq__], and is the same in both directions. *)
Theorem manhattan_distance_metric (a b : Location.t) :
  exists d : Z,
    Location.manhattan_distance (Some a) (Some b) = Ok d /\
    Location.manhattan_distance (Some b) (Some a) = Ok d /\
    0 <= d /\
    (d = 0 <-> Location.__eq__ a b = true).
Proof.
  destruct a as [r1 c1], b as [r2 c2].
  exists (Z.abs (r1 - r2) + Z.abs (c1 - c2)).
  unfold Location.manhattan_distance, Location.__eq__. simpl.
  split; [reflexivity|]. split; [f_equal; lia|]. split; [lia|].
  rewrite andb_true_iff, !Z.eqb_eq. lia.
Qed.

(** X3.  [manhattan_distance] obeys the triangle inequality: going through
    a third location is never shorter. *)
Theorem manhattan_distance_triangle (a b c : Location.t) :
  exists dab dbc dac : Z,
    Location.manhattan_distance (Some a) (Some b) = Ok dab /\
    Location.manhattan_distance (Some b) (Some c) = Ok dbc /\
    Location.manhattan_distance (Some a) (Some c) = Ok dac /\
    dac <= dab + dbc.
Proof.
  destruct a as [r1 c1], b as [r2 c2], c as [r3 c3].
  do 3 eexists. unfold Location.manhattan_distance. simpl.
  repeat split; try reflexivity. lia.
Qed.

Lemma int_of_char_range (c : ascii) (n : Z) :
  Location.int_of_char c = Ok n -> 0 <= n <= 9.
Proof.
  unfold Location.int_of_char.
  destruct (_ && _) eqn:E; [|discriminate].
  apply andb_true_iff in E as [E1 E2].
  apply Z.leb_le in E1, E2. intros H. inversion H. lia.
Qed.

(** X4.  Whatever [deserialize_location] returns lies on the 10 x 10 grid:
    a successful call needs a text of at least three characters and gives
    a row and a column between 0 and 9. *)
Theorem deserialize_location_single_digits (s : string) (loc : Location.t) :
  Location.deserialize_location s = Ok loc ->
  (3 <= String.length s)%nat /\
  0 <= Location.row loc <= 9 /\ 0 <= Location.column loc <= 9.
Proof.
  unfold Location.deserialize_location, Location.index. intros H.
  destruct s as [|a [|b [|c rest]]]; simpl in H; try discriminate.
  - destruct (Location.int_of_char a); discriminate.
  - destruct (Location.int_of_char a); discriminate.
  - destruct (Location.int_of_char a) as [r|] eqn:Ea; [|discriminate].
    simpl in H.
    destruct (Location.int_of_char c) as [k|] eqn:Ec; [|discriminate].
    simpl in H. inversion H; subst. simpl.
    apply int_of_char_range in Ea, Ec. split; [lia|]. split; assumption.
Qed.

Lemma deserialize_location_single_digits_witness :
  (3 <= String.length "3,4")%nat /\
  0 <= Location.row (Location.mk 3 4) <= 9 /\
  0 <= Location.column (Location.mk 3 4) <= 9.
Proof.
  apply (deserialize_location_single_digits "3,4" (Location.mk 3 4)).
  reflexivity.
Defined.

(** [deserialize_location] looks at the characters at positions 0 and 2
    only: the separator at position 1 and everything after position 2
    have no influence on the result. *)
Lemma deserialize_location_ignores_rest (a b b' c : ascii)
    (rest rest' : string) :
  Location.deserialize_location (String a (String b (String c rest))) =
  Location.deserialize_location (String a (String b' (String c rest'))).
Proof. reflexivity. Qed.

(** ** driver.py *)

Lemma manhattan_distance_Some (a b : Location.t) :
  Location.manhattan_distance (Some a) (Some b) =
  Ok (Z.abs (Location.row a - Location.row b)
      + Z.abs (Location.column a - Location.column b)).
Proof. reflexivity. Qed.

(** X5.  The outcome of [get_travel_time]: [AttributeError] when the
    driver has no location or the destination is [None]; otherwise
    [ZeroDivisionError] when the speed is 0; otherwise the floor of the
    Manhattan distance over the speed. *)
Theorem get_travel_time_outcome (d : Driver.t) (dest : option Location.t) :
  (Driver.location d = None \/ dest = None ->
   Driver.get_travel_time d dest = Raise AttributeError) /\
  (forall a b, Driver.location d = Some a -> dest = Some b ->
     Driver.speed d = 0 ->
     Driver.get_travel_time d dest = Raise ZeroDivisionError) /\
  (forall a b, Driver.location d = Some a -> dest = Some b ->
     Driver.speed d <> 0 ->
     exists dist,
       Location.manhattan_distance (Some a) (Some b) = Ok dist /\
       Driver.get_travel_time d dest = Ok (dist / Driver.speed d)).
Proof.
  unfold Driver.get_travel_time, Driver.floordiv. repeat split.
  - intros [H | H]; rewrite H; [reflexivity|].
    destruct (Driver.location d); reflexivity.
  - intros a b Ha Hb Hs. rewrite Ha, Hb, Hs. reflexivity.
  - intros a b Ha Hb Hs. rewrite Ha, Hb, manhattan_distance_Some.
    eexists. split; [reflexivity|]. simpl.
    destruct (Z.eqb_spec (Driver.speed d) 0); [contradiction | reflexivity].
Qed.

Lemma get_travel_time_outcome_witness :
  Driver.get_travel_time
    (Driver.mk "D" (Some (Location.mk 0 0)) 0 None) (Some (Location.mk 2 0))
  = Raise ZeroDivisionError.
Proof.
  apply (proj1 (proj2 (get_travel_time_outcome
                         (Driver.mk "D" (Some (Location.mk 0 0)) 0 None)
                         (Some (Location.mk 2 0))))
           (Location.mk 0 0) (Location.mk 2 0));
    reflexivity.
Defined.

(** X6.  For a driver of positive speed a travel time is the distance
    divided by the speed, rounded down: it is not negative, and the driver
    covers at most the distance in that time and more than the distance in
    one unit more. *)
Theorem get_travel_time_rounds_down (d : Driver.t) (a b : Location.t)
    (time : Z) :
  0 < Driver.speed d ->
  Driver.location d = Some a ->
  Driver.get_travel_time d (Some b) = Ok time ->
  exists dist,
    Location.manhattan_distance (Some a) (Some b) = Ok dist /\
    0 <= time /\
    Driver.speed d * time <= dist < Driver.speed d * (time + 1).
Proof.
  intros Hs Ha H. unfold Driver.get_travel_time, Driver.floordiv in H.
  rewrite Ha, manhattan_distance_Some in H. simpl in H.
  destruct (Z.eqb_spec (Driver.speed d) 0); [lia|].
  inversion H as [Ht]. clear H.
  eexists. split; [apply manhattan_distance_Some|].
  set (dist := Z.abs (Location.row a - Location.row b)
               + Z.abs (Location.column a - Location.column b)) in *.
  assert (0 <= dist) by (unfold dist; lia).
  split; [apply Z.div_pos; lia|].
  pose proof (Z.mul_div_le dist (Driver.speed d) Hs).
  pose proof (Z.mul_succ_div_gt dist (Driver.speed d) Hs). lia.
Qed.

Lemma get_travel_time_rounds_down_witness :
  exists dist,
    Location.manhattan_distance (Some (Location.mk 0 0))
      (Some (Location.mk 3 4)) = Ok dist /\
    0 <= 2 /\ 3 * 2 <= dist < 3 * (2 + 1).
Proof.
  apply (get_travel_time_rounds_down
           (Driver.mk "D" (Some (Location.mk 0 0)) 3 None)
           (Location.mk 0 0) (Location.mk 3 4) 2);
    [reflexivity | reflexivity | reflexivity].
Defined.

(** X7.  A drive from start to end: [start_drive] returns the travel time
    [get_travel_time] gives for the same location and changes nothing but
    the destination; after [end_drive] the driver stands at that location,
    with the same id and speed, and its travel time to it is 0. *)
Theorem start_drive_end_drive (d d' : Driver.t) (loc : Location.t)
    (time : Z) :
  Driver.start_drive d (Some loc) = Ok (time, d') ->
  Driver.get_travel_time d (Some loc) = Ok time /\
  Driver.id d' = Driver.id d /\ Driver.speed d' = Driver.speed d /\
  Driver.location d' = Driver.location d /\
  Driver.destination d' = Some loc /\
  Driver.location (Driver.end_drive d') = Some loc /\
  Driver.id (Driver.end_drive d') = Driver.id d /\
  Driver.speed (Driver.end_drive d') = Driver.speed d /\
  Driver.get_travel_time (Driver.end_drive d') (Some loc) = Ok 0.
Proof.
  unfold Driver.start_drive, Driver.get_travel_time. simpl. intros H.
  apply bind_Ok_inv in H as (dist & Hdist & H).
  apply bind_Ok_inv in H as (t & Ht & H).
  inversion H; subst. simpl. rewrite Hdist. simpl.
  repeat split; try reflexivity; try assumption.
  unfold Driver.floordiv in *.
  destruct (Driver.speed d =? 0); [discriminate|].
  destruct loc as [r c]. unfold Location.manhattan_distance. simpl.
  rewrite !Z.sub_diag. reflexivity.
Qed.

Lemma start_drive_end_drive_witness :
  let d := Driver.__init__ "D" (Location.mk 0 0) 1 in
  let d' := Driver.mk "D" (Some (Location.mk 0 0)) 1 (Some (Location.mk 2 0)) in
  Driver.get_travel_time d (Some (Location.mk 2 0)) = Ok 2 /\
  Driver.id d' = Driver.id d /\ Driver.speed d' = Driver.speed d /\
  Driver.location d' = Driver.location d /\
  Driver.destination d' = Some (Location.mk 2 0) /\
  Driver.location (Driver.end_drive d') = Some (Location.mk 2 0) /\
  Driver.id (Driver.end_drive d') = Driver.id d /\
  Driver.speed (Driver.end_drive d') = Driver.speed d /\
  Driver.get_travel_time (Driver.end_drive d') (Some (Location.mk 2 0))
    = Ok 0.
Proof.
  apply (start_drive_end_drive (Driver.__init__ "D" (Location.mk 0 0) 1)
           (Driver.mk "D" (Some (Location.mk 0 0)) 1
              (Some (Location.mk 2 0)))
           (Location.mk 2 0) 2).
  reflexivity.
Defined.

(** X8.  A ride from start to end: after [start_ride] towards a rider's
    destination and [end_ride] the driver stands at that destination and
    has no destination of its own; id and speed are untouched. *)
Theorem start_ride_end_ride (d d' : Driver.t) (dest : Location.t)
    (time : Z) :
  Driver.start_ride d (Some dest) = Ok (time, d') ->
  Driver.get_travel_time d (Some dest) = Ok time /\
  Driver.location (Driver.end_ride d') = Some dest /\
  Driver.destination (Driver.end_ride d') = None /\
  Driver.id (Driver.end_ride d') = Driver.id d /\
  Driver.speed (Driver.end_ride d') = Driver.speed d.
Proof.
  unfold Driver.start_ride, Driver.get_travel_time. simpl. intros H.
  apply bind_Ok_inv in H as (dist & Hdist & H).
  apply bind_Ok_inv in H as (t & Ht & H).
  inversion H; subst. simpl. rewrite Hdist. simpl.
  repeat split; try reflexivity; assumption.
Qed.

Lemma start_ride_end_ride_witness :
  let d := Driver.__init__ "D" (Location.mk 2 0) 1 in
  let d' := Driver.mk "D" (Some (Location.mk 2 0)) 1 (Some (Location.mk 2 5)) in
  Driver.get_travel_time d (Some (Location.mk 2 5)) = Ok 5 /\
  Driver.location (Driver.end_ride d') = Some (Location.mk 2 5) /\
  Driver.destination (Driver.end_ride d') = None /\
  Driver.id (Driver.end_ride d') = Driver.id d /\
  Driver.speed (Driver.end_ride d') = Driver.speed d.
Proof.
  apply (start_ride_end_ride (Driver.__init__ "D" (Location.mk 2 0) 1)
           (Driver.mk "D" (Some (Location.mk 2 0)) 1
              (Some (Location.mk 2 5)))
           (Location.mk 2 5) 5).
  reflexivity.
Defined.

(** X9.  Ending without a destination loses the driver: [end_drive] on a
    driver just created, or a second [end_ride] in a row, sets the
    location to [None], and from then on every [get_travel_time] and every
    [start_drive] of that driver raises [AttributeError]. *)
Theorem end_without_destination_loses_location :
  (forall identifier loc spd,
     Driver.location (Driver.end_drive (Driver.__init__ identifier loc spd))
       = None) /\
  (forall d, Driver.location (Driver.end_ride (Driver.end_ride d)) = None) /\
  (forall d dest,
     Driver.location d = None ->
     Driver.get_travel_time d dest = Raise AttributeError /\
     Driver.start_drive d dest = Raise AttributeError /\
     Driver.start_ride d dest = Raise AttributeError).
Proof.
  repeat split; try reflexivity;
    unfold Driver.get_travel_time, Driver.start_drive, Driver.start_ride;
    simpl; rewrite H; reflexivity.
Qed.

Lemma end_without_destination_loses_location_witness :
  Driver.get_travel_time
    (Driver.end_ride (Driver.end_ride (Driver.__init__ "D" (Location.mk 0 0) 1)))
    (Some (Location.mk 1 1)) = Raise AttributeError.
Proof.
  apply (proj2 (proj2 end_without_destination_loses_location)).
  reflexivity.
Defined.

(** ** dispatcher.py *)

Lemma py_in_false_not_elem_of (x : ref) (l : list ref) :
  py_in x l = false <-> x ∉ l.
Proof.
  rewrite <- py_in_elem_of. destruct (py_in x l); split; congruence.
Qed.

Lemma py_remove_absent (x : ref) (l : list ref) :
  x ∉ l <-> py_remove x l = Raise ValueError.
Proof.
  induction l as [|y l IH]; simpl.
  - split; [reflexivity | intros _ H; inversion H].
  - rewrite not_elem_of_cons. destruct (Nat.eqb_spec x y) as [-> | Hne].
    + split; [intros [H _]; congruence | discriminate].
    + split.
      * intros [_ H]. apply IH in H. rewrite H. reflexivity.
      * intros H. split; [exact Hne|]. apply IH.
        destruct (py_remove x l); [discriminate | exact H].
Qed.

Lemma py_remove_present (x : ref) (l l' : list ref) :
  py_remove x l = Ok l' <->
  exists l1 l2, l = l1 ++ x :: l2 /\ (x ∉ l1) /\ l' = l1 ++ l2.
Proof.
  revert l'. induction l as [|y l IH]; intros l'; simpl.
  - split; [discriminate|]. intros (l1 & l2 & H & _).
    destruct l1; discriminate.
  - destruct (Nat.eqb_spec x y) as [-> | Hne].
    + split.
      * intros H. inversion H; subst. exists [], l'.
        split; [reflexivity|]. split; [apply not_elem_of_nil | reflexivity].
      * intros (l1 & l2 & H & Hnot & ->). destruct l1 as [|z l1].
        -- simpl in H. inversion H; subst. reflexivity.
        -- simpl in H. inversion H; subst. exfalso. apply Hnot. left.
    + split.
      * intros H. apply bind_Ok_inv in H as (l'' & Hrem & H).
        inversion H; subst. apply IH in Hrem as (l1 & l2 & -> & Hnot & ->).
        exists (y :: l1), l2. split; [reflexivity|].
        split; [|reflexivity]. apply not_elem_of_cons. split; assumption.
      * intros (l1 & l2 & H & Hnot & ->). destruct l1 as [|z l1].
        -- simpl in H. inversion H; subst. contradiction.
        -- simpl in H. inversion H; subst.
           apply not_elem_of_cons in Hnot as [_ Hnot].
           assert (Hrem : py_remove x (l1 ++ x :: l2) = Ok (l1 ++ l2)).
           { apply IH. eauto. }
           rewrite Hrem. reflexivity.
Qed.

Lemma cancel_ride_split (self : Dispatcher.t) (rider : ref) :
  rider ∈ Dispatcher.waitingList self ->
  exists l1 l2,
    Dispatcher.waitingList self = l1 ++ rider :: l2 /\
    (rider ∉ l1) /\
    Dispatcher.cancel_ride self rider =
      Dispatcher.mk (Dispatcher.driverFleet self)
        (Dispatcher.availableDriver self) (l1 ++ l2).
Proof.
  intros Hin. unfold Dispatcher.cancel_ride.
  apply py_in_elem_of in Hin as Hb. rewrite Hb.
  destruct (py_remove rider (Dispatcher.waitingList self)) as [l'|e] eqn:E.
  - apply py_remove_present in E as (l1 & l2 & H1 & H2 & ->).
    exists l1, l2. repeat split; assumption.
  - exfalso. assert (He : e = ValueError).
    { clear Hb Hin. revert E.
      induction (Dispatcher.waitingList self) as [|y l IH]; simpl.
      - congruence.
      - destruct (rider =? y)%nat; [discriminate|].
        destruct (py_remove rider l); [discriminate|].
        simpl. intros H. inversion H; subst. apply IH. reflexivity. }
    subst e. apply py_remove_absent in E. contradiction.
Qed.

(** X10.  [cancel_ride] takes the first occurrence of the rider out of the
    waiting list and keeps every other entry in its place; the driver lists
    are untouched. *)
Theorem cancel_ride_removes_first (self : Dispatcher.t) (rider : ref) :
  rider ∈ Dispatcher.waitingList self ->
  exists l1 l2,
    Dispatcher.waitingList self = l1 ++ rider :: l2 /\
    (rider ∉ l1) /\
    Dispatcher.cancel_ride self rider =
      Dispatcher.mk (Dispatcher.driverFleet self)
        (Dispatcher.availableDriver self) (l1 ++ l2).
Proof. exact (cancel_ride_split self rider). Qed.

Lemma cancel_ride_removes_first_witness :
  exists l1 l2,
    Dispatcher.waitingList (Dispatcher.mk [] [] [4; 5; 6; 5]%nat)
      = l1 ++ 5%nat :: l2 /\
    (5%nat ∉ l1) /\
    Dispatcher.cancel_ride (Dispatcher.mk [] [] [4; 5; 6; 5]%nat) 5%nat =
      Dispatcher.mk [] [] (l1 ++ l2).
Proof.
  apply (cancel_ride_removes_first (Dispatcher.mk [] [] [4; 5; 6; 5]%nat)
           5%nat).
  apply py_in_elem_of. reflexivity.
Defined.

(** X11.  [cancel_ride] of a rider who is not waiting changes nothing; and
    when no rider is listed twice, the cancelled rider is gone from the
    waiting list, so a second [cancel_ride] changes nothing either. *)
Theorem cancel_ride_absent_and_twice (self : Dispatcher.t) (rider : ref) :
  (rider ∉ Dispatcher.waitingList self ->
   Dispatcher.cancel_ride self rider = self) /\
  (NoDup (Dispatcher.waitingList self) ->
   (rider ∉ Dispatcher.waitingList (Dispatcher.cancel_ride self rider)) /\
   Dispatcher.cancel_ride (Dispatcher.cancel_ride self rider) rider
     = Dispatcher.cancel_ride self rider).
Proof.
  assert (Habsent : forall s : Dispatcher.t,
            rider ∉ Dispatcher.waitingList s ->
            Dispatcher.cancel_ride s rider = s).
  { intros s H. unfold Dispatcher.cancel_ride.
    apply py_in_false_not_elem_of in H. rewrite H. reflexivity. }
  split; [apply Habsent|]. intros Hnd.
  assert (Hgone :
    rider ∉ Dispatcher.waitingList (Dispatcher.cancel_ride self rider)).
  { destruct (decide (rider ∈ Dispatcher.waitingList self)) as [Hin|Hout].
    - destruct (cancel_ride_split self rider Hin)
        as (l1 & l2 & Hl & Hnot & ->). simpl.
      rewrite Hl in Hnd. apply NoDup_app in Hnd as (_ & _ & Hnd).
      apply NoDup_cons in Hnd as [Hnot2 _].
      rewrite elem_of_app. tauto.
    - rewrite Habsent by exact Hout. exact Hout. }
  split; [exact Hgone | apply Habsent; exact Hgone].
Qed.

Lemma cancel_ride_absent_and_twice_witness :
  Dispatcher.cancel_ride (Dispatcher.mk [] [] [4; 6]%nat) 5%nat
    = Dispatcher.mk [] [] [4; 6]%nat /\
  ((5%nat ∉ Dispatcher.waitingList
              (Dispatcher.cancel_ride (Dispatcher.mk [] [] [4; 5; 6]%nat)
                 5%nat)) /\
   Dispatcher.cancel_ride
     (Dispatcher.cancel_ride (Dispatcher.mk [] [] [4; 5; 6]%nat) 5%nat) 5%nat
   = Dispatcher.cancel_ride (Dispatcher.mk [] [] [4; 5; 6]%nat) 5%nat).
Proof.
  split.
  - apply (proj1 (cancel_ride_absent_and_twice
                    (Dispatcher.mk [] [] [4; 6]%nat) 5%nat)).
    apply py_in_false_not_elem_of. reflexivity.
  - apply (proj2 (cancel_ride_absent_and_twice
                    (Dispatcher.mk [] [] [4; 5; 6]%nat) 5%nat)).
    simpl. apply NoDup_ListNoDup. repeat constructor; simpl; lia.
Defined.

(** X12.  [deActivateDriver] raises [ValueError] exactly when the driver is
    not in [availableDriver]; otherwise it takes out the first occurrence
    of the driver and touches neither [driverFleet] nor the waiting
    list. *)
Theorem deActivateDriver_outcome (self : Dispatcher.t) (driver : ref) :
  (driver ∉ Dispatcher.availableDriver self <->
   Dispatcher.deActivateDriver self driver = Raise ValueError) /\
  (driver ∈ Dispatcher.availableDriver self ->
   exists l1 l2,
     Dispatcher.availableDriver self = l1 ++ driver :: l2 /\
     (driver ∉ l1) /\
     Dispatcher.deActivateDriver self driver =
       Ok (Dispatcher.mk (Dispatcher.driverFleet self) (l1 ++ l2)
             (Dispatcher.waitingList self))).
Proof.
  unfold Dispatcher.deActivateDriver. split.
  - rewrite py_remove_absent.
    destruct (py_remove driver (Dispatcher.availableDriver self)) as [l|e];
      simpl; split; congruence.
  - intros Hin.
    destruct (py_remove driver (Dispatcher.availableDriver self))
      as [l|e] eqn:E.
    + apply py_remove_present in E as (l1 & l2 & H1 & H2 & ->).
      exists l1, l2. repeat split; assumption.
    + exfalso.
      destruct (decide (driver ∈ Dispatcher.availableDriver self))
        as [_ | Hout]; [|contradiction].
      assert (Hsome : exists l', py_remove driver
                (Dispatcher.availableDriver self) = Ok l').
      { apply list_elem_of_split in Hin as (l1 & l2 & Hl).
        clear E. revert Hl.
        generalize (Dispatcher.availableDriver self) as l.
        induction l1 as [|z l1 IH]; intros l ->; simpl.
        - rewrite Nat.eqb_refl. eauto.
        - destruct (driver =? z)%nat; [eauto|].
          destruct (IH _ eq_refl) as [l' ->]. simpl. eauto. }
      destruct Hsome as [l' Hl']. congruence.
Qed.

Lemma deActivateDriver_outcome_witness :
  exists l1 l2,
    Dispatcher.availableDriver Scenario.dispatcherB = l1 ++ 1%nat :: l2 /\
    (1%nat ∉ l1) /\
    Dispatcher.deActivateDriver Scenario.dispatcherB 1%nat =
      Ok (Dispatcher.mk (Dispatcher.driverFleet Scenario.dispatcherB)
            (l1 ++ l2) (Dispatcher.waitingList Scenario.dispatcherB)).
Proof.
  apply (proj2 (deActivateDriver_outcome Scenario.dispatcherB 1%nat)).
  apply py_in_elem_of. reflexivity.
Defined.

(** X13.  [activateDriver] followed by [deActivateDriver] of the same
    driver gives back the dispatcher, provided the driver was not
    available before. *)
Theorem activate_then_deactivate (self : Dispatcher.t) (driver : ref) :
  driver ∉ Dispatcher.availableDriver self ->
  Dispatcher.deActivateDriver (Dispatcher.activateDriver self driver) driver
    = Ok self.
Proof.
  intros Hout. unfold Dispatcher.deActivateDriver, Dispatcher.activateDriver.
  simpl.
  assert (H : py_remove driver (Dispatcher.availableDriver self ++ [driver])
              = Ok (Dispatcher.availableDriver self ++ [])).
  { apply py_remove_present. eauto. }
  rewrite H, app_nil_r. simpl. destruct self; reflexivity.
Qed.

Lemma activate_then_deactivate_witness :
  Dispatcher.deActivateDriver
    (Dispatcher.activateDriver Scenario.dispatcherB 7%nat) 7%nat
    = Ok Scenario.dispatcherB.
Proof.
  apply (activate_then_deactivate Scenario.dispatcherB 7%nat).
  apply py_in_false_not_elem_of. reflexivity.
Defined.

Lemma py_remove_one_of_two (x : ref) (l : list ref) :
  exists l', py_remove x (l ++ [x; x]) = Ok l' /\ x ∈ l'.
Proof.
  induction l as [|y l IH]; simpl.
  - rewrite Nat.eqb_refl. exists [x]. split; [reflexivity | left].
  - destruct (x =? y)%nat.
    + eexists. split; [reflexivity|]. apply elem_of_app. right. left.
    + destruct IH as (l' & -> & Hin). simpl.
      exists (y :: l'). split; [reflexivity | right; exact Hin].
Qed.

(** X14.  [activateDriver] does not look for duplicates: the list grows by
    one entry at every call, and a driver activated twice is still
    available after one [deActivateDriver]. *)
Theorem activateDriver_allows_duplicates (self : Dispatcher.t)
    (driver : ref) :
  length (Dispatcher.availableDriver (Dispatcher.activateDriver self driver))
    = S (length (Dispatcher.availableDriver self)) /\
  exists self',
    Dispatcher.deActivateDriver
      (Dispatcher.activateDriver (Dispatcher.activateDriver self driver)
         driver) driver = Ok self' /\
    driver ∈ Dispatcher.availableDriver self'.
Proof.
  split.
  - unfold Dispatcher.activateDriver. simpl. rewrite length_app. simpl. lia.
  - unfold Dispatcher.deActivateDriver, Dispatcher.activateDriver. simpl.
    rewrite <- app_assoc. simpl.
    destruct (py_remove_one_of_two driver (Dispatcher.availableDriver self))
      as (l' & -> & Hin).
    simpl. eexists. split; [reflexivity|]. exact Hin.
Qed.

(** X15.  Registration is idempotent: [request_rider] called again with a
    driver gives the same answer and leaves the dispatcher as the first
    call left it; a fleet without repetitions stays without
    repetitions. *)
Theorem request_rider_idempotent (self : Dispatcher.t) (driver : ref) :
  Dispatcher.request_rider (snd (Dispatcher.request_rider self driver)) driver
    = Dispatcher.request_rider self driver /\
  (NoDup (Dispatcher.driverFleet self) ->
   NoDup (Dispatcher.driverFleet (snd (Dispatcher.request_rider self driver)))).
Proof.
  destruct self as [fleet available waiting].
  unfold Dispatcher.request_rider. simpl.
  destruct (py_in driver fleet) eqn:Hin; simpl.
  - split.
    + destruct waiting; simpl; rewrite Hin; reflexivity.
    + destruct waiting; simpl; trivial.
  - assert (Hin' : py_in driver (fleet ++ [driver]) = true).
    { apply py_in_elem_of. apply elem_of_app. right. left. }
    split.
    + destruct waiting; simpl; rewrite Hin'; reflexivity.
    + intros Hnd.
      assert (NoDup (fleet ++ [driver])).
      { apply NoDup_app. split; [exact Hnd|]. split.
        - intros x Hx Hx'. apply list_elem_of_singleton in Hx'. subst.
          apply py_in_false_not_elem_of in Hin. contradiction.
        - apply NoDup_singleton. }
      destruct waiting; simpl; assumption.
Qed.

Lemma request_rider_idempotent_witness :
  NoDup (Dispatcher.driverFleet
           (snd (Dispatcher.request_rider Scenario.dispatcherB 7%nat))).
Proof.
  apply (proj2 (request_rider_idempotent Scenario.dispatcherB 7%nat)).
  simpl. apply NoDup_ListNoDup. repeat constructor; simpl; lia.
Defined.

Lemma cancel_ride_keeps_drivers (self : Dispatcher.t) (rider : ref) :
  Dispatcher.driverFleet (Dispatcher.cancel_ride self rider)
    = Dispatcher.driverFleet self /\
  Dispatcher.availableDriver (Dispatcher.cancel_ride self rider)
    = Dispatcher.availableDriver self.
Proof.
  unfold Dispatcher.cancel_ride.
  destruct (py_in rider (Dispatcher.waitingList self)); [|tauto].
  destruct (py_remove rider (Dispatcher.waitingList self)); simpl; tauto.
Qed.

(** X16.  The operations of the dispatcher other than [activateDriver]
    keep every available driver inside the fleet: if [availableDriver] is
    contained in [driverFleet] before [request_rider], [cancel_ride],
    [deActivateDriver] or [request_driver], it is so afterwards. *)
Theorem available_within_fleet_preserved (h : gmap nat object)
    (self : Dispatcher.t) :
  Dispatcher.availableDriver self ⊆ Dispatcher.driverFleet self ->
  (forall driver,
     Dispatcher.availableDriver (snd (Dispatcher.request_rider self driver))
     ⊆ Dispatcher.driverFleet (snd (Dispatcher.request_rider self driver))) /\
  (forall rider,
     Dispatcher.availableDriver (Dispatcher.cancel_ride self rider)
     ⊆ Dispatcher.driverFleet (Dispatcher.cancel_ride self rider)) /\
  (forall driver self',
     Dispatcher.deActivateDriver self driver = Ok self' ->
     Dispatcher.availableDriver self' ⊆ Dispatcher.driverFleet self') /\
  (forall rider res self',
     Dispatcher.request_driver h self rider = Ok (res, self') ->
     Dispatcher.availableDriver self' ⊆ Dispatcher.driverFleet self').
Proof.
  intros Hinv. repeat split.
  - intros driver. destruct self as [fleet available waiting].
    unfold Dispatcher.request_rider. simpl in *.
    destruct (py_in driver fleet); simpl.
    + destruct waiting; simpl; exact Hinv.
    + assert (available ++ [driver] ⊆ fleet ++ [driver]).
      { intros x Hx. apply elem_of_app in Hx as [Hx | Hx];
          apply elem_of_app; [left; apply Hinv; exact Hx | right; exact Hx]. }
      destruct waiting; simpl; assumption.
  - intros rider. destruct (cancel_ride_keeps_drivers self rider) as [-> ->].
    exact Hinv.
  - intros driver self' H. unfold Dispatcher.deActivateDriver in H.
    apply bind_Ok_inv in H as (l & Hl & H). inversion H; subst. simpl.
    apply py_remove_present in Hl as (l1 & l2 & Hav & _ & ->).
    intros x Hx. apply Hinv. rewrite Hav.
    apply elem_of_app in Hx as [Hx | Hx]; apply elem_of_app;
      [left; exact Hx | right; right; exact Hx].
  - intros rider res self' H.
    apply request_driver_available_unchanged in H as (-> & -> & _).
    exact Hinv.
Qed.

Lemma available_within_fleet_preserved_witness :
  Dispatcher.availableDriver
    (snd (Dispatcher.request_rider Scenario.dispatcherB 7%nat))
  ⊆ Dispatcher.driverFleet
      (snd (Dispatcher.request_rider Scenario.dispatcherB 7%nat)).
Proof.
  apply (proj1 (available_within_fleet_preserved ∅ Scenario.dispatcherB
                  (fun x H => H))).
Defined.

(** [activateDriver] does not keep it: it lists a driver that never
    registered. *)
Example activateDriver_outside_fleet :
  Dispatcher.availableDriver (Dispatcher.activateDriver Dispatcher.__init__ 3%nat)
    = [3%nat] /\
  Dispatcher.driverFleet (Dispatcher.activateDriver Dispatcher.__init__ 3%nat)
    = [].
Proof. split; reflexivity. Qed.

(** X19.  Riders queue in the order of their requests: with no driver
    available and nobody waiting, two riders who request a driver one
    after the other are both put on the waiting list, and the driver who
    then asks for a rider is given the one who asked first. *)
Theorem riders_served_in_request_order (h : gmap nat object)
    (self : Dispatcher.t) (r1 r2 driver : ref) :
  Dispatcher.availableDriver self = [] ->
  Dispatcher.waitingList self = [] ->
  exists s1 s2,
    Dispatcher.request_driver h self r1 = Ok (None, s1) /\
    Dispatcher.request_driver h s1 r2 = Ok (None, s2) /\
    fst (Dispatcher.request_rider s2 driver) = Some r1 /\
    Dispatcher.waitingList (snd (Dispatcher.request_rider s2 driver))
      = [r1; r2].
Proof.
  destruct self as [fleet available waiting]. simpl. intros -> ->.
  do 2 eexists. unfold Dispatcher.request_driver. simpl.
  split; [reflexivity|]. split; [reflexivity|].
  unfold Dispatcher.request_rider. simpl.
  destruct (py_in driver fleet); simpl; split; reflexivity.
Qed.

Lemma riders_served_in_request_order_witness :
  exists s1 s2,
    Dispatcher.request_driver Scenario.storeB Dispatcher.__init__ 2%nat
      = Ok (None, s1) /\
    Dispatcher.request_driver Scenario.storeB s1 3%nat = Ok (None, s2) /\
    fst (Dispatcher.request_rider s2 0%nat) = Some 2%nat /\
    Dispatcher.waitingList (snd (Dispatcher.request_rider s2 0%nat))
      = [2%nat; 3%nat].
Proof.
  apply (riders_served_in_request_order Scenario.storeB Dispatcher.__init__
           2%nat 3%nat 0%nat); reflexivity.
Defined.

(** ** event.py: the handlers *)

Lemma deref_Ok (h : gmap nat object) (r : ref) (o : object) :
  deref h r = Ok o -> h !! r = Some o.
Proof. unfold deref. destruct (h !! r); intros H; inversion H; reflexivity. Qed.

Lemma as_driver_Ok (o : object) (d : Driver.t) :
  as_driver o = Ok d -> o = DriverObj d.
Proof. destruct o; simpl; intros H; inversion H; reflexivity. Qed.

Lemma as_rider_Ok (o : object) (r : Rider.t) :
  as_rider o = Ok r -> o = RiderObj r.
Proof. destruct o; simpl; intros H; inversion H; reflexivity. Qed.

Lemma attr_patience_Ok (o : object) (p : Z) :
  attr_patience o = Ok p -> exists r, o = RiderObj r /\ Rider.patience r = p.
Proof. destruct o; simpl; intros H; inversion H; eauto. Qed.

Lemma attr_status_Ok (o : object) (s : string) :
  attr_status o = Ok s -> exists r, o = RiderObj r /\ Rider.status r = s.
Proof. destruct o; simpl; intros H; inversion H; eauto. Qed.

Lemma manhattan_distance_nonneg (a b : option Location.t) (dist : Z) :
  Location.manhattan_distance a b = Ok dist -> 0 <= dist.
Proof.
  destruct a as [a|], b as [b|]; try discriminate.
  rewrite manhattan_distance_Some. intros H. inversion H. lia.
Qed.

Lemma start_drive_inv (d d' : Driver.t) (loc : option Location.t) (t : Z) :
  Driver.start_drive d loc = Ok (t, d') ->
  d' = Driver.mk (Driver.id d) (Driver.location d) (Driver.speed d) loc /\
  (0 < Driver.speed d -> 0 <= t).
Proof.
  unfold Driver.start_drive. simpl. intros H.
  apply bind_Ok_inv in H as (dist & Hdist & H).
  apply bind_Ok_inv in H as (t' & Ht & H). inversion H; subst.
  split; [reflexivity|]. intros Hs.
  apply manhattan_distance_nonneg in Hdist.
  unfold Driver.floordiv in Ht. destruct (Driver.speed d =? 0); [discriminate|].
  inversion Ht. apply Z.div_pos; lia.
Qed.

Lemma start_ride_inv (d d' : Driver.t) (loc : option Location.t) (t : Z) :
  Driver.start_ride d loc = Ok (t, d') ->
  d' = Driver.mk (Driver.id d) (Driver.location d) (Driver.speed d) loc /\
  (0 < Driver.speed d -> 0 <= t).
Proof.
  unfold Driver.start_ride. simpl. intros H.
  apply bind_Ok_inv in H as (dist & Hdist & H).
  apply bind_Ok_inv in H as (t' & Ht & H). inversion H; subst.
  split; [reflexivity|]. intros Hs.
  apply manhattan_distance_nonneg in Hdist.
  unfold Driver.floordiv in Ht. destruct (Driver.speed d =? 0); [discriminate|].
  inversion Ht. apply Z.div_pos; lia.
Qed.

Lemma same_actor_refl (o : object) : same_actor o o.
Proof. destruct o; simpl; tauto. Qed.

Lemma same_actor_trans (o1 o2 o3 : object) :
  same_actor o1 o2 -> same_actor o2 o3 -> same_actor o1 o3.
Proof.
  destruct o1, o2, o3; simpl; try tauto.
  - intros [-> ->] [-> ->]. tauto.
  - intros (-> & -> & -> & ->) (-> & -> & -> & ->). tauto.
Qed.

Lemma store_same_refl (h : gmap nat object) (r : nat) :
  option_Forall2 same_actor (h !! r) (h !! r).
Proof. destruct (h !! r); constructor. apply same_actor_refl. Qed.

Lemma store_same_insert (h h' : gmap nat object) (k : nat) (o o' : object) :
  (forall r, option_Forall2 same_actor (h !! r) (h' !! r)) ->
  h' !! k = Some o -> same_actor o o' ->
  forall r, option_Forall2 same_actor (h !! r) (<[k := o']> h' !! r).
Proof.
  intros Hsame Hk Hoo r. destruct (decide (k = r)) as [<- | Hne].
  - rewrite lookup_insert_eq. specialize (Hsame k). rewrite Hk in Hsame.
    inversion Hsame; subst. constructor. eapply same_actor_trans; eauto.
  - rewrite lookup_insert_ne by exact Hne. apply Hsame.
Qed.

Lemma sound_lookup (h : gmap nat object) (r : nat) (o : object) :
  map_Forall (fun _ => sound_object) h -> h !! r = Some o -> sound_object o.
Proof. intros Hs Hr. exact (Hs r o Hr). Qed.

Lemma RiderRequest_do_post (K : Monitor.constants) (ts : Z) (rider : ref)
    (w w' : world) (evs : list Event.t) :
  Event.RiderRequest_do K ts rider w = Ok (evs, w') ->
  handler_post ts w evs w'.
Proof.
  unfold Event.RiderRequest_do. intros H.
  apply bind_Ok_inv in H as (r & Hr & H).
  apply bind_Ok_inv in H as ([driver disp] & Hreq & H).
  destruct driver as [d|].
  - apply bind_Ok_inv in H as (o & Ho & H).
    apply bind_Ok_inv in H as (dr & Hdr & H).
    apply bind_Ok_inv in H as ([t dr'] & Hstart & H).
    apply bind_Ok_inv in H as (r' & Hr' & H).
    apply bind_Ok_inv in H as (p & Hp & H).
    inversion H; subst; clear H. simpl.
    apply deref_Ok in Ho, Hr'. apply as_driver_Ok in Hdr. subst o.
    apply start_drive_inv in Hstart as [-> Htime].
    apply attr_patience_Ok in Hp as (rd & -> & <-).
    repeat split.
    + eexists. split; reflexivity.
    + apply store_same_insert with (o := DriverObj dr);
        [apply store_same_refl | exact Ho | simpl; tauto].
    + simpl; lia.
    + intros Hsound.
      assert (Hd : sound_object (DriverObj dr))
        by (eapply sound_lookup; eauto).
      assert (Hrd : sound_object (RiderObj rd)).
      { destruct (decide (d = rider)) as [-> | Hne].
        - rewrite lookup_insert_eq in Hr'. discriminate.
        - rewrite lookup_insert_ne in Hr' by exact Hne.
          eapply sound_lookup; eauto. }
      simpl in Hd, Hrd. specialize (Htime Hd).
      repeat constructor; simpl; lia.
  - apply bind_Ok_inv in H as (p & Hp & H).
    inversion H; subst; clear H. simpl.
    apply deref_Ok in Hr.
    apply attr_patience_Ok in Hp as (rd & -> & <-).
    repeat split.
    + eexists. split; reflexivity.
    + apply store_same_refl.
    + simpl; lia.
    + intros Hsound.
      assert (Hrd : sound_object (RiderObj rd))
        by (eapply sound_lookup; eauto).
      simpl in Hrd. repeat constructor; simpl; lia.
Qed.

Lemma DriverRequest_do_post (K : Monitor.constants) (ts : Z) (driver : ref)
    (w w' : world) (evs : list Event.t) :
  Event.DriverRequest_do K ts driver w = Ok (evs, w') ->
  handler_post ts w evs w'.
Proof.
  unfold Event.DriverRequest_do. intros H.
  apply bind_Ok_inv in H as (o & Ho & H).
  destruct (Dispatcher.request_rider (dispatcher w) driver) as [rider disp].
  apply deref_Ok in Ho.
  destruct rider as [r|].
  - apply bind_Ok_inv in H as (dr & Hdr & H).
    apply bind_Ok_inv in H as (ro & Hro & H).
    apply bind_Ok_inv in H as ([t dr'] & Hstart & H).
    inversion H; subst; clear H. simpl.
    apply as_driver_Ok in Hdr. subst o.
    apply start_drive_inv in Hstart as [-> Htime].
    repeat split.
    + eexists. split; reflexivity.
    + apply store_same_insert with (o := DriverObj dr);
        [apply store_same_refl | exact Ho | simpl; tauto].
    + simpl; lia.
    + intros Hsound.
      assert (Hd : sound_object (DriverObj dr))
        by (eapply sound_lookup; eauto).
      simpl in Hd. specialize (Htime Hd).
      repeat constructor; simpl; lia.
  - inversion H; subst; clear H. simpl. repeat split.
    + eexists. split; reflexivity.
    + apply store_same_refl.
    + simpl; lia.
    + intros _. constructor.
Qed.

Lemma Cancellation_do_post (K : Monitor.constants) (ts : Z) (rider : ref)
    (w w' : world) (evs : list Event.t) :
  Event.Cancellation_do K ts rider w = Ok (evs, w') ->
  handler_post ts w evs w'.
Proof.
  unfold Event.Cancellation_do. intros H.
  apply bind_Ok_inv in H as (o & Ho & H).
  apply bind_Ok_inv in H as (r & Hr & H).
  inversion H; subst; clear H. simpl.
  apply deref_Ok in Ho. apply as_rider_Ok in Hr. subst o.
  repeat split.
  - eexists. split; reflexivity.
  - apply store_same_insert with (o := RiderObj r);
      [apply store_same_refl | exact Ho | simpl; tauto].
  - simpl; lia.
  - intros _. constructor.
Qed.

Lemma Pickup_do_post (K : Monitor.constants) (ts : Z) (rider driver : ref)
    (w w' : world) (evs : list Event.t) :
  Event.Pickup_do K ts rider driver w = Ok (evs, w') ->
  handler_post ts w evs w'.
Proof.
  unfold Event.Pickup_do. intros H.
  apply bind_Ok_inv in H as (o & Ho & H).
  apply bind_Ok_inv in H as (dr & Hdr & H).
  apply bind_Ok_inv in H as (ro & Hro & H).
  apply bind_Ok_inv in H as (status & Hst & H).
  apply deref_Ok in Ho, Hro. apply as_driver_Ok in Hdr. subst o.
  assert (Hsame1 : forall r, option_Forall2 same_actor (store w !! r)
            (<[driver := DriverObj (Driver.end_drive dr)]> (store w) !! r)).
  { apply store_same_insert with (o := DriverObj dr);
      [apply store_same_refl | exact Ho | simpl; tauto]. }
  destruct (String.eqb status Rider.WAITING).
  - apply bind_Ok_inv in H as ([t dr'] & Hstart & H).
    inversion H; subst; clear H. simpl.
    apply start_ride_inv in Hstart as [-> Htime]. simpl in Htime.
    repeat split.
    + eexists. split; reflexivity.
    + apply store_same_insert with (o := DriverObj (Driver.end_drive dr));
        [exact Hsame1 | apply lookup_insert_eq | simpl; tauto].
    + simpl; lia.
    + intros Hsound.
      assert (Hd : sound_object (DriverObj dr))
        by (eapply sound_lookup; eauto).
      simpl in Hd. specialize (Htime Hd).
      repeat constructor; simpl; lia.
  - destruct (String.eqb status (Monitor.CANCEL K));
      inversion H; subst; clear H; simpl; repeat split;
      try (eexists; split; reflexivity); try exact Hsame1; try (simpl; lia);
      intros _; repeat constructor; simpl; lia.
Qed.

Lemma Dropoff_do_post (K : Monitor.constants) (ts : Z) (driver rider : ref)
    (w w' : world) (evs : list Event.t) :
  Event.Dropoff_do K ts driver rider w = Ok (evs, w') ->
  handler_post ts w evs w'.
Proof.
  unfold Event.Dropoff_do. intros H.
  apply bind_Ok_inv in H as (o & Ho & H).
  apply bind_Ok_inv in H as (dr & Hdr & H).
  apply bind_Ok_inv in H as (ro & Hro & H).
  apply bind_Ok_inv in H as (r & Hr & H).
  inversion H; subst; clear H. simpl.
  apply deref_Ok in Ho, Hro. apply as_driver_Ok in Hdr.
  apply as_rider_Ok in Hr. subst o ro.
  repeat split.
  - eexists. split; reflexivity.
  - apply store_same_insert with (o := RiderObj r);
      [| exact Hro | simpl; tauto].
    apply store_same_insert with (o := DriverObj dr);
      [apply store_same_refl | exact Ho | simpl; tauto].
  - simpl; lia.
  - intros _. repeat constructor; simpl; lia.
Qed.

Lemma do_post (K : Monitor.constants) (e : Event.t) (w w' : world)
    (evs : list Event.t) :
  Event.do_ K e w = Ok (evs, w') ->
  handler_post (Event.timestamp e) w evs w'.
Proof.
  destruct e; simpl.
  - apply RiderRequest_do_post.
  - apply DriverRequest_do_post.
  - apply Cancellation_do_post.
  - apply Pickup_do_post.
  - apply Dropoff_do_post.
Qed.

Lemma storeD_sound : map_Forall (fun _ => sound_object) Scenario.storeD.
Proof.
  unfold Scenario.storeD.
  apply map_Forall_insert_2; [simpl; lia|].
  apply map_Forall_insert_2; [simpl; lia|].
  apply map_Forall_empty.
Qed.

(** X20.  Time does not run backwards: in a store where every driver has a
    positive speed and every rider a patience that is not negative, a
    handler returns at most two events, none with a timestamp before its
    own, and the store it leaves is again such a store. *)
Theorem spawned_events_not_earlier (K : Monitor.constants) (e : Event.t)
    (w w' : world) (evs : list Event.t) :
  map_Forall (fun _ => sound_object) (store w) ->
  Event.do_ K e w = Ok (evs, w') ->
  (length evs <= 2)%nat /\
  Forall (fun e' => Event.timestamp e <= Event.timestamp e') evs /\
  map_Forall (fun _ => sound_object) (store w').
Proof.
  intros Hsound Hrun.
  destruct (do_post K e w w' evs Hrun) as (_ & Hsame & Hlen & Htime).
  split; [exact Hlen|]. split; [exact (Htime Hsound)|].
  intros r o' Hr. specialize (Hsame r). rewrite Hr in Hsame.
  inversion Hsame as [o ? Hoo Ho |]; subst.
  symmetry in Ho. pose proof (sound_lookup _ _ _ Hsound Ho) as Hs.
  destruct o, o'; simpl in *; try contradiction.
  - destruct Hoo as [_ <-]. exact Hs.
  - destruct Hoo as (_ & _ & _ & <-). exact Hs.
Qed.

Lemma spawned_events_not_earlier_witness :
  let out :=
    ran (Event.do_ Scenario.K (Event.DriverRequest 0 0%nat) Scenario.worldD)
      Scenario.worldD in
  (length (fst out) <= 2)%nat /\
  Forall (fun e' => 0 <= Event.timestamp e') (fst out) /\
  map_Forall (fun _ => sound_object) (store (snd out)).
Proof.
  apply (spawned_events_not_earlier Scenario.K (Event.DriverRequest 0 0%nat)
           Scenario.worldD).
  - exact storeD_sound.
  - vm_compute. reflexivity.
Defined.

(** X21.  Every handler that returns notifies the monitor exactly once,
    with its own timestamp: the log (an append-only list, as the spec
    describes the monitor) is the old one with one record added at the
    end. *)
Theorem one_notification_per_event (K : Monitor.constants) (e : Event.t)
    (w w' : world) (evs : list Event.t) :
  Event.do_ K e w = Ok (evs, w') ->
  exists a,
    monitor w' = monitor w ++ [a] /\
    Monitor.timestamp a = Event.timestamp e.
Proof.
  intros Hrun. exact (proj1 (do_post K e w w' evs Hrun)).
Qed.

Lemma one_notification_per_event_witness :
  let out :=
    ran (Event.do_ Scenario.K (Event.DriverRequest 0 0%nat) Scenario.worldD)
      Scenario.worldD in
  exists a,
    monitor (snd out) = monitor Scenario.worldD ++ [a] /\
    Monitor.timestamp a = 0.
Proof.
  apply (one_notification_per_event Scenario.K (Event.DriverRequest 0 0%nat)
           Scenario.worldD _ (fst (ran (Event.do_ Scenario.K
              (Event.DriverRequest 0 0%nat) Scenario.worldD) Scenario.worldD))).
  vm_compute. reflexivity.
Defined.

(** X22.  No handler creates or deletes an instance or changes its class,
    and none changes a driver's id or speed, or a rider's id, pickup
    location, destination or patience: reference by reference the store
    after the handler holds the same actor as before. *)
Theorem handlers_keep_actors (K : Monitor.constants) (e : Event.t)
    (w w' : world) (evs : list Event.t) :
  Event.do_ K e w = Ok (evs, w') ->
  forall r : nat, option_Forall2 same_actor (store w !! r) (store w' !! r).
Proof.
  intros Hrun. exact (proj1 (proj2 (do_post K e w w' evs Hrun))).
Qed.

Lemma handlers_keep_actors_witness :
  let out :=
    ran (Event.do_ Scenario.K (Event.DriverRequest 0 0%nat) Scenario.worldD)
      Scenario.worldD in
  option_Forall2 same_actor (store Scenario.worldD !! 0%nat)
    (store (snd out) !! 0%nat).
Proof.
  apply (handlers_keep_actors Scenario.K (Event.DriverRequest 0 0%nat)
           Scenario.worldD _ (fst (ran (Event.do_ Scenario.K
              (Event.DriverRequest 0 0%nat) Scenario.worldD) Scenario.worldD))
           ltac:(vm_compute; reflexivity) 0%nat).
Defined.

Lemma request_rider_head (self : Dispatcher.t) (driver : ref) :
  fst (Dispatcher.request_rider self driver)
    = head (Dispatcher.waitingList self) /\
  Dispatcher.waitingList (snd (Dispatcher.request_rider self driver))
    = Dispatcher.waitingList self /\
  driver ∈ Dispatcher.driverFleet (snd (Dispatcher.request_rider self driver)) /\
  (driver ∉ Dispatcher.driverFleet self ->
   driver ∈
     Dispatcher.availableDriver (snd (Dispatcher.request_rider self driver))).
Proof.
  destruct self as [fleet available waiting].
  unfold Dispatcher.request_rider. simpl.
  destruct (py_in driver fleet) eqn:Hin; simpl.
  - apply py_in_elem_of in Hin.
    destruct waiting; simpl; repeat split; try assumption; contradiction.
  - destruct waiting; simpl; repeat split; intros;
      apply elem_of_app; right; left.
Qed.

(** X23.  Every Pickup that [DriverRequest.do] creates fails when it is
    run: the event is built with the driver in the place of the rider and
    the rider in the place of the driver, so with riders on the waiting
    list the Pickup calls [end_drive] on a [Rider] and raises
    [AttributeError]. *)
Theorem DriverRequest_pickup_raises (K : Monitor.constants) (ts : Z)
    (driver : ref) (w w' : world) (evs : list Event.t) :
  (forall r, r ∈ Dispatcher.waitingList (dispatcher w) ->
     exists rd, store w !! r = Some (RiderObj rd)) ->
  Event.do_ K (Event.DriverRequest ts driver) w = Ok (evs, w') ->
  Forall (fun e => Event.do_ K e w' = Raise AttributeError) evs.
Proof.
  intros Hriders. simpl. unfold Event.DriverRequest_do. intros H.
  apply bind_Ok_inv in H as (o & Ho & H).
  destruct (request_rider_head (dispatcher w) driver) as (Hfst & _).
  destruct (Dispatcher.request_rider (dispatcher w) driver) as [rider disp].
  simpl in Hfst. apply deref_Ok in Ho.
  destruct rider as [r|].
  - apply bind_Ok_inv in H as (dr & Hdr & H).
    apply bind_Ok_inv in H as (ro & Hro & H).
    apply bind_Ok_inv in H as ([t dr'] & Hstart & H).
    inversion H; subst; clear H.
    apply as_driver_Ok in Hdr. subst o.
    destruct (Hriders r) as [rd Hrd].
    { destruct (Dispatcher.waitingList (dispatcher w)) as [|x l];
        [discriminate|]. simpl in Hfst. inversion Hfst. left. }
    assert (Hne : driver <> r) by (intros ->; congruence).
    constructor; [|constructor]. simpl. unfold Event.Pickup_do, deref. simpl.
    rewrite lookup_insert_ne by exact Hne. rewrite Hrd. reflexivity.
  - inversion H; subst. constructor.
Qed.

Lemma DriverRequest_pickup_raises_witness :
  let out :=
    ran (Event.do_ Scenario.K (Event.DriverRequest 0 0%nat) Scenario.worldD)
      Scenario.worldD in
  Forall (fun e => Event.do_ Scenario.K e (snd out) = Raise AttributeError)
    (fst out).
Proof.
  apply (DriverRequest_pickup_raises Scenario.K 0 0%nat Scenario.worldD).
  - intros r Hr. apply list_elem_of_singleton in Hr. subst r.
    eexists. vm_compute. reflexivity.
  - vm_compute. reflexivity.
Defined.

(** X24.  A driver request with nobody waiting returns no event and leaves
    every instance as it was; the driver is in the fleet afterwards, and
    on the list of available drivers too if this was its first request. *)
Theorem DriverRequest_nobody_waiting (K : Monitor.constants) (ts : Z)
    (driver : ref) (w : world) (o : object) :
  store w !! driver = Some o ->
  Dispatcher.waitingList (dispatcher w) = [] ->
  exists w',
    Event.do_ K (Event.DriverRequest ts driver) w = Ok ([], w') /\
    store w' = store w /\
    Dispatcher.waitingList (dispatcher w') = [] /\
    driver ∈ Dispatcher.driverFleet (dispatcher w') /\
    (driver ∉ Dispatcher.driverFleet (dispatcher w) ->
     driver ∈ Dispatcher.availableDriver (dispatcher w')).
Proof.
  intros Ho Hw. simpl. unfold Event.DriverRequest_do, deref. rewrite Ho. simpl.
  destruct (request_rider_head (dispatcher w) driver)
    as (Hfst & Hwait & Hfleet & Hav).
  destruct (Dispatcher.request_rider (dispatcher w) driver) as [rider disp].
  simpl in *. rewrite Hw in Hfst, Hwait. simpl in Hfst. subst rider.
  eexists. split; [reflexivity|]. simpl. repeat split; assumption.
Qed.

Lemma DriverRequest_nobody_waiting_witness :
  exists w',
    Event.do_ Scenario.K (Event.DriverRequest 3 0%nat)
      (mkWorld Scenario.storeD Dispatcher.__init__ []) = Ok ([], w') /\
    store w' = Scenario.storeD /\
    Dispatcher.waitingList (dispatcher w') = [] /\
    0%nat ∈ Dispatcher.driverFleet (dispatcher w') /\
    (0%nat ∉ Dispatcher.driverFleet Dispatcher.__init__ ->
     0%nat ∈ Dispatcher.availableDriver (dispatcher w')).
Proof.
  apply (DriverRequest_nobody_waiting Scenario.K 3 0%nat
           (mkWorld Scenario.storeD Dispatcher.__init__ [])
           (DriverObj (Driver.__init__ "D" (Location.mk 0 0) 1))).
  - vm_compute. reflexivity.
  - reflexivity.
Defined.

(** X25.  A Dropoff of a driver and a rider of the store never raises: the
    rider ends SATISFIED whatever the status was before (CANCELLED
    included), the driver stands at its destination and has none left,
    the dispatcher is untouched, and the one event returned is a
    DriverRequest of the same driver at the same timestamp. *)
Theorem Dropoff_do_effect (K : Monitor.constants) (ts : Z)
    (driver rider : ref) (w : world) (dr : Driver.t) (r : Rider.t) :
  store w !! driver = Some (DriverObj dr) ->
  store w !! rider = Some (RiderObj r) ->
  exists w',
    Event.do_ K (Event.Dropoff ts driver rider) w
      = Ok ([Event.DriverRequest ts driver], w') /\
    store w' !! rider
      = Some (RiderObj
                (Rider.mk (Rider.id r) Rider.SATISFIED (Rider.destination r)
                   (Rider.location r) (Rider.patience r))) /\
    store w' !! driver
      = Some (DriverObj
                (Driver.mk (Driver.id dr) (Driver.destination dr)
                   (Driver.speed dr) None)) /\
    dispatcher w' = dispatcher w.
Proof.
  intros Hd Hr.
  assert (Hne : driver <> rider) by (intros ->; congruence).
  simpl. unfold Event.Dropoff_do, deref. rewrite Hd. simpl.
  rewrite lookup_insert_ne by exact Hne. rewrite Hr. simpl.
  eexists. split; [reflexivity|]. simpl.
  split; [apply lookup_insert_eq|]. split; [|reflexivity].
  rewrite lookup_insert_ne by (intros E; apply Hne; symmetry; exact E).
  apply lookup_insert_eq.
Qed.

Lemma Dropoff_do_effect_witness :
  exists w',
    Event.do_ Scenario.K (Event.Dropoff 7 0%nat 1%nat)
      (Scenario.worldC Rider.CANCELLED)
      = Ok ([Event.DriverRequest 7 0%nat], w') /\
    store w' !! 1%nat
      = Some (RiderObj
                (Rider.mk "R" Rider.SATISFIED (Location.mk 2 5)
                   (Location.mk 2 0) 5)) /\
    store w' !! 0%nat
      = Some (DriverObj
                (Driver.mk "D" (Some (Location.mk 2 0)) 1 None)) /\
    dispatcher w' = dispatcher (Scenario.worldC Rider.CANCELLED).
Proof.
  apply (Dropoff_do_effect Scenario.K 7 0%nat 1%nat
           (Scenario.worldC Rider.CANCELLED)
           (Driver.mk "D" (Some (Location.mk 0 0)) 1
              (Some (Location.mk 2 0)))
           (Rider.mk "R" Rider.CANCELLED (Location.mk 2 5)
              (Location.mk 2 0) 5));
    vm_compute; reflexivity.
Defined.

(** X26.  A Pickup that finds the rider WAITING: the driver (with a
    destination and a speed other than 0) is moved to that destination,
    is given the rider's destination as its new one, and one Dropoff is
    returned, later by the travel time between the two; the rider's record
    and the dispatcher are untouched, so the rider stays WAITING during the
    ride. *)
Theorem Pickup_do_waiting_rider (K : Monitor.constants) (ts : Z)
    (rider driver : ref) (w : world) (dr : Driver.t) (r : Rider.t)
    (l : Location.t) :
  store w !! driver = Some (DriverObj dr) ->
  store w !! rider = Some (RiderObj r) ->
  Rider.status r = Rider.WAITING ->
  Driver.destination dr = Some l ->
  Driver.speed dr <> 0 ->
  exists dist w',
    Location.manhattan_distance (Some l) (Some (Rider.destination r))
      = Ok dist /\
    Event.do_ K (Event.Pickup ts rider driver) w
      = Ok ([Event.Dropoff (ts + dist / Driver.speed dr) driver rider], w') /\
    store w' !! driver
      = Some (DriverObj
                (Driver.mk (Driver.id dr) (Some l) (Driver.speed dr)
                   (Some (Rider.destination r)))) /\
    store w' !! rider = Some (RiderObj r) /\
    dispatcher w' = dispatcher w.
Proof.
  intros Hd Hr Hst Hdest Hspeed.
  assert (Hne : driver <> rider) by (intros ->; congruence).
  eexists. eexists. split; [apply manhattan_distance_Some|].
  unfold Event.do_, Event.Pickup_do, deref.
  rewrite Hd. cbn [bind as_driver].
  rewrite lookup_insert_ne by exact Hne. rewrite Hr.
  cbn [bind attr_status attr_destination attr_id attr_location]. rewrite Hst.
  change (String.eqb Rider.WAITING Rider.WAITING) with true. cbv iota.
  unfold Driver.start_ride, Driver.end_drive. cbn [Driver.location
    Driver.speed Driver.id Driver.destination]. rewrite Hdest.
  rewrite manhattan_distance_Some. cbn [bind]. unfold Driver.floordiv.
  destruct (Z.eqb_spec (Driver.speed dr) 0) as [E | _]; [contradiction|].
  cbn [bind]. split; [reflexivity|]. cbn [store dispatcher].
  split; [apply lookup_insert_eq|]. split; [|reflexivity].
  rewrite !lookup_insert_ne by exact Hne. exact Hr.
Qed.

Lemma Pickup_do_waiting_rider_witness :
  exists dist w',
    Location.manhattan_distance (Some (Location.mk 2 0))
      (Some (Location.mk 2 5)) = Ok dist /\
    Event.do_ Scenario.K (Event.Pickup 2 1%nat 0%nat)
      (Scenario.worldC Rider.WAITING)
      = Ok ([Event.Dropoff (2 + dist / 1) 0%nat 1%nat], w') /\
    store w' !! 0%nat
      = Some (DriverObj
                (Driver.mk "D" (Some (Location.mk 2 0)) 1
                   (Some (Location.mk 2 5)))) /\
    store w' !! 1%nat
      = Some (RiderObj (Rider.mk "R" Rider.WAITING (Location.mk 2 5)
                          (Location.mk 2 0) 5)) /\
    dispatcher w' = dispatcher (Scenario.worldC Rider.WAITING).
Proof.
  apply (Pickup_do_waiting_rider Scenario.K 2 1%nat 0%nat
           (Scenario.worldC Rider.WAITING)
           (Driver.mk "D" (Some (Location.mk 0 0)) 1
              (Some (Location.mk 2 0)))
           (Rider.mk "R" Rider.WAITING (Location.mk 2 5)
              (Location.mk 2 0) 5)
           (Location.mk 2 0));
    try (vm_compute; reflexivity).
  discriminate.
Defined.

Lemma start_drive_time (d d' : Driver.t) (loc : option Location.t) (t : Z) :
  Driver.start_drive d loc = Ok (t, d') -> Driver.get_travel_time d loc = Ok t.
Proof.
  unfold Driver.start_drive, Driver.get_travel_time. simpl. intros H.
  apply bind_Ok_inv in H as (dist & -> & H).
  apply bind_Ok_inv in H as (t' & Ht & H). inversion H; subst.
  simpl. exact Ht.
Qed.

(** X27.  A rider request that returns found no driver available: it
    returns exactly one event, the rider's Cancellation at the timestamp
    plus the patience, the rider is appended to the waiting list and no
    instance is changed.  No rider request ever returns a Pickup, since
    with a driver available [request_driver] raises. *)
Theorem RiderRequest_do_events (K : Monitor.constants) (ts : Z)
    (rider : ref) (w w' : world) (evs : list Event.t) :
  Event.do_ K (Event.RiderRequest ts rider) w = Ok (evs, w') ->
  exists r,
    store w !! rider = Some (RiderObj r) /\
    evs = [Event.Cancellation (ts + Rider.patience r) rider] /\
    Dispatcher.availableDriver (dispatcher w) = [] /\
    Dispatcher.waitingList (dispatcher w')
      = Dispatcher.waitingList (dispatcher w) ++ [rider] /\
    store w' = store w.
Proof.
  simpl. unfold Event.RiderRequest_do. intros H.
  apply bind_Ok_inv in H as (ro & Hro & H).
  apply bind_Ok_inv in H as ([driver disp] & Hreq & H).
  apply deref_Ok in Hro.
  destruct (Dispatcher.availableDriver (dispatcher w))
    as [|first rest] eqn:Hav.
  - unfold Dispatcher.request_driver in Hreq. rewrite Hav in Hreq.
    inversion Hreq; subst; clear Hreq.
    apply bind_Ok_inv in H as (p & Hp & H).
    inversion H; subst; clear H.
    apply attr_patience_Ok in Hp as (rd & -> & <-).
    exists rd. simpl. repeat split; try reflexivity. exact Hro.
  - rewrite (request_driver_raises _ _ rider first rest Hav) in Hreq.
    discriminate.
Qed.

Lemma RiderRequest_do_events_witness :
  let w := mkWorld Scenario.storeB Dispatcher.__init__ [] in
  let out := ran (Event.do_ Scenario.K (Event.RiderRequest 0 2%nat) w) w in
  exists r,
    store w !! 2%nat = Some (RiderObj r) /\
    fst out = [Event.Cancellation (0 + Rider.patience r) 2%nat] /\
    Dispatcher.availableDriver (dispatcher w) = [] /\
    Dispatcher.waitingList (dispatcher (snd out))
      = Dispatcher.waitingList (dispatcher w) ++ [2%nat] /\
    store (snd out) = store w.
Proof.
  apply (RiderRequest_do_events Scenario.K 0 2%nat
           (mkWorld Scenario.storeB Dispatcher.__init__ [])).
  vm_compute. reflexivity.
Defined.

(** With a driver available the rider request raises, as [request_driver]
    does. *)
Lemma RiderRequest_do_raises (K : Monitor.constants) (ts : Z) (rider : ref)
    (w : world) (first : ref) (rest : list ref) :
  Dispatcher.availableDriver (dispatcher w) = first :: rest ->
  exists e, Event.do_ K (Event.RiderRequest ts rider) w = Raise e.
Proof.
  intros Hav. simpl. unfold Event.RiderRequest_do.
  destruct (deref (store w) rider) as [ro|e]; simpl; [|eauto].
  rewrite (request_driver_raises _ _ rider first rest Hav). simpl. eauto.
Qed.

(** ** event.py: comparisons and the loader *)

(** X28.  The six comparisons of [Event] agree with one another: of
    [<], [==] and [>] exactly one holds for any two events, [<=] is [<] or
    [==], [!=] and [>=] are the negations of [==] and [<], and [<=] is
    reflexive, transitive and total.  Two different events of one
    timestamp are each [<=] the other. *)
Theorem event_order_total :
  (forall e1 e2 : Event.t,
     (Event.__lt__ e1 e2 = true /\ Event.__eq__ e1 e2 = false /\
      Event.__gt__ e1 e2 = false) \/
     (Event.__lt__ e1 e2 = false /\ Event.__eq__ e1 e2 = true /\
      Event.__gt__ e1 e2 = false) \/
     (Event.__lt__ e1 e2 = false /\ Event.__eq__ e1 e2 = false /\
      Event.__gt__ e1 e2 = true)) /\
  (forall e1 e2 : Event.t,
     Event.__le__ e1 e2 = Event.__lt__ e1 e2 || Event.__eq__ e1 e2 /\
     Event.__ne__ e1 e2 = negb (Event.__eq__ e1 e2) /\
     Event.__ge__ e1 e2 = negb (Event.__lt__ e1 e2) /\
     Event.__gt__ e1 e2 = Event.__lt__ e2 e1) /\
  (forall e : Event.t, Event.__le__ e e = true) /\
  (forall e1 e2 e3 : Event.t,
     Event.__le__ e1 e2 = true -> Event.__le__ e2 e3 = true ->
     Event.__le__ e1 e3 = true) /\
  (forall e1 e2 : Event.t,
     Event.__le__ e1 e2 = true \/ Event.__le__ e2 e1 = true).
Proof.
  unfold Event.__ne__, Event.__gt__, Event.__ge__.
  unfold Event.__le__, Event.__eq__, Event.__lt__.
  repeat split.
  - intros e1 e2.
    destruct (Z.ltb_spec (Event.timestamp e1) (Event.timestamp e2));
      destruct (Z.eqb_spec (Event.timestamp e1) (Event.timestamp e2));
      destruct (Z.leb_spec (Event.timestamp e1) (Event.timestamp e2));
      simpl; try lia; tauto.
  - destruct (Z.ltb_spec (Event.timestamp e1) (Event.timestamp e2));
      destruct (Z.eqb_spec (Event.timestamp e1) (Event.timestamp e2));
      destruct (Z.leb_spec (Event.timestamp e1) (Event.timestamp e2));
      simpl; try lia; reflexivity.
  - destruct (Z.ltb_spec (Event.timestamp e2) (Event.timestamp e1));
      destruct (Z.leb_spec (Event.timestamp e1) (Event.timestamp e2));
      simpl; try lia; reflexivity.
  - intros e. apply Z.leb_refl.
  - intros e1 e2 e3. rewrite !Z.leb_le. lia.
  - intros e1 e2. rewrite !Z.leb_le. lia.
Qed.

Lemma token_Ok (tokens : list string) (i : nat) (s : string) :
  token tokens i = Ok s -> tokens !! i = Some s.
Proof.
  unfold token. destruct (tokens !! i); intros H; inversion H; reflexivity.
Qed.

Lemma deserialize_location_in_grid (s : string) (l : Location.t) :
  Location.deserialize_location s = Ok l -> in_grid l.
Proof.
  unfold Location.deserialize_location. intros H.
  apply bind_Ok_inv in H as (c0 & _ & H).
  apply bind_Ok_inv in H as (r & Hr & H).
  apply bind_Ok_inv in H as (c2 & _ & H).
  apply bind_Ok_inv in H as (c & Hc & H).
  inversion H; subst. apply int_of_char_range in Hr, Hc.
  split; assumption.
Qed.

(** One line of the file: either its type is neither of the two known
    ones and nothing happens, or one instance is created under a fresh
    reference and one event of the line's timestamp refers to it. *)
Lemma event_of_tokens_inv (int : string -> result Z) (tokens : list string)
    (h h' : gmap nat object) (event : list Event.t) :
  event_of_tokens int tokens h = Ok (event, h') ->
  exists t0 ts ty,
    tokens !! 0%nat = Some t0 /\ int t0 = Ok ts /\ tokens !! 1%nat = Some ty /\
    ((ty <> "DriverRequest"%string /\ ty <> "RiderRequest"%string /\
      event = [] /\ h' = h) \/
     (exists o,
        loaded_object o /\ h' = <[fresh (dom h) := o]> h /\
        ((ty = "DriverRequest"%string /\
          event = [Event.DriverRequest ts (fresh (dom h))]) \/
         (ty = "RiderRequest"%string /\
          event = [Event.RiderRequest ts (fresh (dom h))])))).
Proof.
  unfold event_of_tokens. intros H.
  apply bind_Ok_inv in H as (t0 & Ht0 & H).
  apply bind_Ok_inv in H as (ts & Hts & H).
  apply bind_Ok_inv in H as (ty & Hty & H).
  apply token_Ok in Ht0, Hty.
  exists t0, ts, ty. repeat (split; [assumption|]).
  destruct (String.eqb_spec ty "DriverRequest") as [Ed | Nd].
  - right.
    apply bind_Ok_inv in H as (ident & _ & H).
    apply bind_Ok_inv in H as (t3 & _ & H).
    apply bind_Ok_inv in H as (loc & Hloc & H).
    apply bind_Ok_inv in H as (t4 & _ & H).
    apply bind_Ok_inv in H as (spd & _ & H).
    unfold alloc in H. inversion H; subst; clear H.
    eexists. split; [|split; [reflexivity | left; split; reflexivity]].
    simpl. split; [reflexivity|]. eexists. split; [reflexivity|].
    eapply deserialize_location_in_grid; eauto.
  - destruct (String.eqb_spec ty "RiderRequest") as [Er | Nr].
    + right.
      apply bind_Ok_inv in H as (ident & _ & H).
      apply bind_Ok_inv in H as (t3 & _ & H).
      apply bind_Ok_inv in H as (loc & Hloc & H).
      apply bind_Ok_inv in H as (t4 & _ & H).
      apply bind_Ok_inv in H as (dest & Hdest & H).
      apply bind_Ok_inv in H as (t5 & _ & H).
      apply bind_Ok_inv in H as (pat & _ & H).
      unfold alloc in H. inversion H; subst; clear H.
      eexists. split; [|split; [reflexivity | right; split; reflexivity]].
      simpl. split; [reflexivity|].
      split; eapply deserialize_location_in_grid; eauto.
    + left. inversion H; subst. repeat split; assumption.
Qed.

(** X29.  [create_event_list] returns a list of lists, one entry per line
    kept and in the order of the lines: the entry of a [DriverRequest] or
    [RiderRequest] line is a list of one event of that class with the
    line's timestamp, and the entry of a line of any other type is the
    empty list. *)
Theorem create_event_list_entries (int : string -> result Z)
    (lines : list (list string)) (h h' : gmap nat object)
    (events : list (list Event.t)) :
  create_event_list int lines h = Ok (events, h') ->
  Forall2
    (fun tokens event =>
       exists t0 ts ty,
         tokens !! 0%nat = Some t0 /\ int t0 = Ok ts /\
         tokens !! 1%nat = Some ty /\
         ((ty = "DriverRequest"%string /\
           exists r, event = [Event.DriverRequest ts r]) \/
          (ty = "RiderRequest"%string /\
           exists r, event = [Event.RiderRequest ts r]) \/
          (ty <> "DriverRequest"%string /\ ty <> "RiderRequest"%string /\
           event = [])))
    lines events.
Proof.
  revert h h' events. induction lines as [|tokens rest IH];
    intros h h' events H; simpl in H.
  - inversion H; subst. constructor.
  - apply bind_Ok_inv in H as ([event h1] & Hline & H).
    apply bind_Ok_inv in H as ([events' h2] & Hrest & H).
    inversion H; subst; clear H.
    constructor; [|eapply IH; exact Hrest].
    apply event_of_tokens_inv in Hline
      as (t0 & ts & ty & H0 & Hts & H1 & Hcase).
    exists t0, ts, ty. repeat (split; [assumption|]).
    destruct Hcase as [(Nd & Nr & -> & _) | (o & _ & _ & [[-> ->] | [-> ->]])].
    + right. right. repeat split; assumption.
    + left. split; [reflexivity | eauto].
    + right. left. split; [reflexivity | eauto].
Qed.

Lemma create_event_list_entries_witness :
  Forall2
    (fun tokens event =>
       exists t0 ts ty,
         tokens !! 0%nat = Some t0 /\ LoaderScenario.int t0 = Ok ts /\
         tokens !! 1%nat = Some ty /\
         ((ty = "DriverRequest"%string /\
           exists r, event = [Event.DriverRequest ts r]) \/
          (ty = "RiderRequest"%string /\
           exists r, event = [Event.RiderRequest ts r]) \/
          (ty <> "DriverRequest"%string /\ ty <> "RiderRequest"%string /\
           event = [])))
    LoaderScenario.lines (fst LoaderScenario.loaded).
Proof.
  apply (create_event_list_entries LoaderScenario.int LoaderScenario.lines
           ∅ (snd LoaderScenario.loaded)).
  vm_compute. reflexivity.
Defined.

(** X30.  Every event of the loader has an instance of its own: the
    references the events carry are pairwise different and new to the
    store, also for two lines with the same identifier; each names an
    instance on the 10 x 10 grid, a driver without destination or a rider
    WAITING; and the instances the store held before are untouched. *)
Theorem create_event_list_fresh_instances (int : string -> result Z)
    (lines : list (list string)) (h h' : gmap nat object)
    (events : list (list Event.t)) :
  create_event_list int lines h = Ok (events, h') ->
  NoDup (actor <$> concat events) /\
  (forall e, e ∈ concat events ->
     h !! actor e = None /\
     exists o, h' !! actor e = Some o /\ loaded_object o) /\
  (forall (r : nat) (o : object), h !! r = Some o -> h' !! r = Some o).
Proof.
  revert h h' events. induction lines as [|tokens rest IH];
    intros h h' events H; simpl in H.
  - inversion H; subst. simpl. split; [constructor|].
    split; [intros e He; inversion He | auto].
  - apply bind_Ok_inv in H as ([event h1] & Hline & H).
    apply bind_Ok_inv in H as ([events' h2] & Hrest & H).
    inversion H; subst; clear H.
    destruct (IH _ _ _ Hrest) as (Hnd & Hnew & Hkeep).
    apply event_of_tokens_inv in Hline
      as (t0 & ts & ty & _ & _ & _ & Hcase).
    destruct Hcase as [(_ & _ & -> & ->) | (o & Ho & -> & Hev)].
    + simpl. split; [exact Hnd | split; [exact Hnew | exact Hkeep]].
    + assert (Hfresh : h !! fresh (dom h) = None).
      { apply not_elem_of_dom. apply is_fresh. }
      assert (Hsub : forall (r : nat) (x : object),
                h !! r = Some x -> <[fresh (dom h) := o]> h !! r = Some x).
      { intros r x Hr. rewrite lookup_insert_ne; [exact Hr|].
        intros <-. congruence. }
      assert (Hact : exists e0, event = [e0] /\ actor e0 = fresh (dom h)).
      { destruct Hev as [[_ ->] | [_ ->]]; eexists; split; reflexivity. }
      destruct Hact as (e0 & -> & Hact). simpl. rewrite Hact.
      split; [|split].
      * apply NoDup_cons. split; [|exact Hnd].
        intros Hin. apply list_elem_of_fmap in Hin as (e & He & Hin).
        destruct (Hnew e Hin) as [Hnone _]. rewrite <- He in Hnone.
        rewrite lookup_insert_eq in Hnone. discriminate.
      * intros e He. apply elem_of_cons in He as [-> | He].
        -- rewrite Hact. split; [exact Hfresh|]. exists o.
           split; [|exact Ho]. apply Hkeep. apply lookup_insert_eq.
        -- destruct (Hnew e He) as [Hnone Hobj]. split; [|exact Hobj].
           destruct (h !! actor e) as [x|] eqn:E; [|reflexivity].
           apply Hsub in E.
           pose proof (eq_trans (eq_sym E) Hnone). discriminate.
      * intros r x Hr. apply Hkeep. apply Hsub. exact Hr.
Qed.

Lemma create_event_list_fresh_instances_witness :
  NoDup (actor <$> concat (fst LoaderScenario.loaded)) /\
  (forall e, e ∈ concat (fst LoaderScenario.loaded) ->
     (∅ : gmap nat object) !! actor e = None /\
     exists o, snd LoaderScenario.loaded !! actor e = Some o /\
               loaded_object o) /\
  (forall (r : nat) (o : object),
     (∅ : gmap nat object) !! r = Some o ->
     snd LoaderScenario.loaded !! r = Some o).
Proof.
  apply (create_event_list_fresh_instances LoaderScenario.int
           LoaderScenario.lines).
  vm_compute. reflexivity.
Defined.
